(** * FIR stereo AXI wrapper: bare-metal driver (fir_stereo.c / fir_stereo.h)

    A shallow embedding of the driver in [software/baremetal] and the
    properties of its register-level contract.

    - machine integers are [Z] with the wrap-around written out;
    - the two platform primitives [Xil_In32] / [Xil_Out32] are an interface
      ([Platform]); every driver function is a computation over an arbitrary
      device that also records the ordered list of bus accesses it performs;
    - [RegFile] is the platform in which a load from an address returns the
      last value stored to it. *)

From Stdlib Require Import ZArith List Lia Bool.
Import ListNotations.
Local Open Scope Z_scope.

(* ========================================================================= *)
(** * Machine integers *)
(* ========================================================================= *)

(** [(u32)x]: conversion to a 32-bit unsigned integer. *)
Definition to_u32 (x : Z) : Z := x mod 2 ^ 32.

(** [(s16)x]: conversion to a 16-bit two's-complement integer. *)
Definition to_s16 (x : Z) : Z := (x + 2 ^ 15) mod 2 ^ 16 - 2 ^ 15.

Definition is_u32 (x : Z) : Prop := 0 <= x < 2 ^ 32.
Definition is_s16 (x : Z) : Prop := - 2 ^ 15 <= x < 2 ^ 15.

(** [UINTPTR] is the platform's pointer-sized unsigned integer: 32 bits on
    the 32-bit targets, 64 bits on the 64-bit ones. *)
Inductive PtrWidth : Set := Ptr32 | Ptr64.

Definition ptr_bits (w : PtrWidth) : Z :=
  match w with Ptr32 => 32 | Ptr64 => 64 end.

(** [(UINTPTR)x]. *)
Definition to_uintptr (w : PtrWidth) (x : Z) : Z := x mod 2 ^ ptr_bits w.

(* ========================================================================= *)
(** * fir_stereo.h *)
(* ========================================================================= *)

Definition FIR_REG_CTRL_OFFSET : Z := 0x00.
Definition FIR_MEM_COEFF_OFFSET : Z := 0x10.

(** [(1U << 0)] and [(1U << 1)]. *)
Definition FIR_CTRL_ENABLE_BIT : Z := Z.shiftl 1 0.
Definition FIR_CTRL_CLEAR_BIT : Z := Z.shiftl 1 1.

(** [~x] on a 32-bit unsigned operand. *)
Definition not_u32 (x : Z) : Z := to_u32 (Z.lnot x).

Record FirStereo_Config : Set := mkConfig {
  BaseAddress : Z;   (* UINTPTR *)
  NumTaps : Z;       (* u32 *)
  IsReady : Z        (* u32 *)
}.

(** Modelled from the spec: the status constants and the ready marker come
    from the platform headers (xstatus.h, xil_types.h), which are not part of
    the sources; the spec only asks for a success status, a distinct
    well-defined failure status and a "ready" value of the flag.  The values
    are the ones of the vendor headers. *)
Definition XST_SUCCESS : Z := 0.
Definition XST_FAILURE : Z := 1.
Definition XIL_COMPONENT_IS_READY : Z := 0x11111111.

(* ========================================================================= *)
(** * The platform: volatile 32-bit loads and stores *)
(* ========================================================================= *)

(** One entry of the ordered bus log. *)
Inductive Event : Set :=
| EvRead (addr val : Z)
| EvWrite (addr val : Z).

(** What the driver consumes from the platform.  A device is any state
    machine answering loads and absorbing stores; a load may change it. *)
Class Platform : Type := {
  ptr_width : PtrWidth;
  Device : Type;
  dev_in32 : Z -> Device -> Z * Device;
  dev_out32 : Z -> Z -> Device -> Device
}.

(** The platform of the testable properties: a register file in which a load
    returns the last value stored to the address. *)
Definition reg_store (a v : Z) (m : Z -> Z) : Z -> Z :=
  fun x => if x =? a then v else m x.

Definition RegFile (w : PtrWidth) : Platform := {|
  ptr_width := w;
  Device := Z -> Z;
  dev_in32 := fun a m => (m a, m);
  dev_out32 := reg_store
|}.

Section Driver.
Context {P : Platform}.

(** ** Computations over the bus

    A computation takes the device and returns its result, the device
    afterwards and the accesses it made, oldest first. *)
Record Run (A : Type) : Type := mkRun {
  ret_val : A;
  final_dev : Device;
  trace : list Event
}.
Arguments mkRun {A} _ _ _.
Arguments ret_val {A} _.
Arguments final_dev {A} _.
Arguments trace {A} _.

Definition M (A : Type) : Type := Device -> Run A.

Definition ret {A} (a : A) : M A := fun s => mkRun a s [].

Definition bind {A B} (m : M A) (f : A -> M B) : M B :=
  fun s =>
    let r := m s in
    let r' := f (ret_val r) (final_dev r) in
    mkRun (ret_val r') (final_dev r') (trace r ++ trace r').

Notation "x <- c1 ;; c2" := (bind c1 (fun x => c2))
  (at level 61, c1 at next level, right associativity).
Notation "c1 ;; c2" := (bind c1 (fun _ => c2))
  (at level 61, right associativity).

(** [Xil_In32(Addr)]: one load; the result has type [u32]. *)
Definition Xil_In32 (Addr : Z) : M Z :=
  fun s =>
    let v := to_u32 (fst (dev_in32 Addr s)) in
    mkRun v (snd (dev_in32 Addr s)) [EvRead Addr v].

(** [Xil_Out32(Addr, Value)]: one store of a [u32]. *)
Definition Xil_Out32 (Addr Value : Z) : M unit :=
  fun s => mkRun tt (dev_out32 Addr Value s) [EvWrite Addr Value].

(** ** fir_stereo.c *)

(** [#define FIR_WriteReg(BaseAddr, Offset, Data)
       Xil_Out32((BaseAddr) + (Offset), (u32)(Data))] *)
Definition FIR_WriteReg (BaseAddr Offset Data : Z) : M unit :=
  Xil_Out32 (to_uintptr ptr_width (BaseAddr + Offset)) (to_u32 Data).

(** [#define FIR_ReadReg(BaseAddr, Offset) Xil_In32((BaseAddr) + (Offset))] *)
Definition FIR_ReadReg (BaseAddr Offset : Z) : M Z :=
  Xil_In32 (to_uintptr ptr_width (BaseAddr + Offset)).

(** [void FIR_Enable(FirStereo_Config *InstancePtr, u8 Enable)].  The
    functions other than [FIR_Init] only read through [InstancePtr]; they
    take the descriptor it points to. *)
Definition FIR_Enable (Inst : FirStereo_Config) (Enable : Z) : M unit :=
  RegVal <- FIR_ReadReg (BaseAddress Inst) FIR_REG_CTRL_OFFSET ;;
  let RegVal :=
    if Enable =? 0
    then Z.land RegVal (not_u32 FIR_CTRL_ENABLE_BIT)
    else Z.lor RegVal FIR_CTRL_ENABLE_BIT in
  FIR_WriteReg (BaseAddress Inst) FIR_REG_CTRL_OFFSET RegVal.

(** [void FIR_SoftReset(FirStereo_Config *InstancePtr)] *)
Definition FIR_SoftReset (Inst : FirStereo_Config) : M unit :=
  let Base := BaseAddress Inst in
  RegVal <- FIR_ReadReg Base FIR_REG_CTRL_OFFSET ;;
  FIR_WriteReg Base FIR_REG_CTRL_OFFSET (Z.lor RegVal FIR_CTRL_CLEAR_BIT) ;;
  FIR_WriteReg Base FIR_REG_CTRL_OFFSET
               (Z.land RegVal (not_u32 FIR_CTRL_CLEAR_BIT)).

(** [InstancePtr->BaseAddress + FIR_MEM_COEFF_OFFSET + (TapIndex * 4)]:
    the product is a [u32], the two sums are [UINTPTR]s. *)
Definition coeff_addr (Inst : FirStereo_Config) (TapIndex : Z) : Z :=
  to_uintptr ptr_width
    (to_uintptr ptr_width (BaseAddress Inst + FIR_MEM_COEFF_OFFSET)
     + to_u32 (TapIndex * 4)).

(** [void FIR_SetCoeff(FirStereo_Config *InstancePtr, u32 TapIndex, s16 Value)] *)
Definition FIR_SetCoeff (Inst : FirStereo_Config) (TapIndex Value : Z)
  : M unit :=
  if TapIndex >=? NumTaps Inst then ret tt
  else
    let Addr := coeff_addr Inst TapIndex in
    FIR_WriteReg Addr 0 (to_u32 Value).

(** [s16 FIR_GetCoeff(FirStereo_Config *InstancePtr, u32 TapIndex)] *)
Definition FIR_GetCoeff (Inst : FirStereo_Config) (TapIndex : Z) : M Z :=
  if TapIndex >=? NumTaps Inst then ret 0
  else
    let Addr := coeff_addr Inst TapIndex in
    w <- FIR_ReadReg Addr 0 ;;
    ret (to_s16 w).

(** [for (u32 i = lo; i < hi; i++) body(i);] with the increment wrapping as
    a [u32] does.  [fuel] bounds the number of iterations. *)
Fixpoint for_u32 (fuel : nat) (i hi : Z) (body : Z -> M unit) : M unit :=
  match fuel with
  | O => ret tt
  | S fuel' =>
      if i <? hi
      then body i ;; for_u32 fuel' (to_u32 (i + 1)) hi body
      else ret tt
  end.

(** [CoeffArray[i]] for a [const s16 *] over the cells [A]; reading past the
    cells is outside the C semantics and yields 0 here. *)
Definition array_get (A : list Z) (i : Z) : Z := nth (Z.to_nat i) A 0.

(** [void FIR_LoadConfig(FirStereo_Config *InstancePtr,
                         const s16 *CoeffArray, u32 Length)],
    with [fuel] iterations allowed to each of its two loops. *)
Definition FIR_LoadConfig_fuel (fuel : nat) (Inst : FirStereo_Config)
           (CoeffArray : list Z) (Length : Z) : M unit :=
  CtrlReg <- FIR_ReadReg (BaseAddress Inst) FIR_REG_CTRL_OFFSET ;;
  let WasEnabled :=
    if Z.land CtrlReg FIR_CTRL_ENABLE_BIT =? 0 then 0 else 1 in
  FIR_Enable Inst 0 ;;
  let Limit := if Length <? NumTaps Inst then Length else NumTaps Inst in
  for_u32 fuel Limit (NumTaps Inst)
          (fun i => FIR_SetCoeff Inst i 0) ;;
  for_u32 fuel 0 Limit
          (fun i => FIR_SetCoeff Inst i (array_get CoeffArray i)) ;;
  if WasEnabled =? 0 then ret tt else FIR_Enable Inst 1.

(** Neither loop runs more than [NumTaps] times: that much fuel is all the
    function ever uses (see [FIR_LoadConfig_fuel_enough]). *)
Definition FIR_LoadConfig (Inst : FirStereo_Config) (CoeffArray : list Z)
           (Length : Z) : M unit :=
  FIR_LoadConfig_fuel (Z.to_nat (NumTaps Inst)) Inst CoeffArray Length.

(** Descriptor storage: [InstancePtr] is NULL ([None]) or the address of a
    descriptor slot; [InstancePtr->field = v] updates one field of one
    slot. *)
Definition Heap : Type := nat -> FirStereo_Config.

Definition heap_update (p : nat) (f : FirStereo_Config -> FirStereo_Config)
           (h : Heap) : Heap :=
  fun q => if Nat.eqb q p then f (h q) else h q.

Definition set_BaseAddress (v : Z) (c : FirStereo_Config) : FirStereo_Config :=
  mkConfig v (NumTaps c) (IsReady c).
Definition set_NumTaps (v : Z) (c : FirStereo_Config) : FirStereo_Config :=
  mkConfig (BaseAddress c) v (IsReady c).
Definition set_IsReady (v : Z) (c : FirStereo_Config) : FirStereo_Config :=
  mkConfig (BaseAddress c) (NumTaps c) v.

(** [int FIR_Init(FirStereo_Config *InstancePtr, UINTPTR BaseAddress,
                  u32 NumTaps)]: returns the status and the descriptor
    storage afterwards. *)
Definition FIR_Init (InstancePtr : option nat) (Base Taps : Z) (h : Heap)
  : M (Z * Heap) :=
  match InstancePtr with
  | None => ret (XST_FAILURE, h)
  | Some p =>
      let h := heap_update p (set_BaseAddress Base) h in
      let h := heap_update p (set_NumTaps Taps) h in
      let h := heap_update p (set_IsReady XIL_COMPONENT_IS_READY) h in
      FIR_Enable (h p) 0 ;;
      FIR_SoftReset (h p) ;;
      ret (XST_SUCCESS, h)
  end.

End Driver.

Arguments Run {P} A.
Arguments mkRun {P A} _ _ _.
Arguments ret_val {P A} _.
Arguments final_dev {P A} _.
Arguments trace {P A} _.

(* ========================================================================= *)
(** * Vocabulary of the properties *)
(* ========================================================================= *)

(** The address of CTRL as [FIR_ReadReg] / [FIR_WriteReg] compute it. *)
Definition ctrl_addr {P : Platform} (Inst : FirStereo_Config) : Z :=
  to_uintptr ptr_width (BaseAddress Inst + FIR_REG_CTRL_OFFSET).

(** The word a load from CTRL returns in device state [s], and the device
    after that load. *)
Definition ctrl_read {P : Platform} (Inst : FirStereo_Config) (s : Device)
  : Z :=
  to_u32 (fst (dev_in32 (ctrl_addr Inst) s)).

Definition after_ctrl_read {P : Platform} (Inst : FirStereo_Config)
           (s : Device) : Device :=
  snd (dev_in32 (ctrl_addr Inst) s).

(** The indices [lo, lo+1, ..., hi-1]. *)
Definition zrange (lo hi : Z) : list Z :=
  map (fun k => lo + Z.of_nat k) (seq 0 (Z.to_nat (hi - lo))).

(** Running [body] on each index of a list, in order. *)
Fixpoint foreach {P : Platform} (l : list Z) (body : Z -> M unit) : M unit :=
  match l with
  | [] => ret tt
  | i :: l' => bind (body i) (fun _ => foreach l' body)
  end.

(** The store [FIR_SetCoeff] issues for tap [i] and value [v]. *)
Definition coeff_write {P : Platform} (Inst : FirStereo_Config) (i v : Z)
  : Event :=
  EvWrite (coeff_addr Inst i) (to_u32 v).

(** The descriptor [FIR_Init] leaves in the slot. *)
Definition ready_config (Base Taps : Z) : FirStereo_Config :=
  mkConfig Base Taps XIL_COMPONENT_IS_READY.

(** The device after storing [val i] to the slot of each tap [i] of [l],
    in order. *)
Definition store_taps {P : Platform} (Inst : FirStereo_Config)
           (val : Z -> Z) (l : list Z) (s : Device) : Device :=
  fold_left (fun s' i => dev_out32 (coeff_addr Inst i) (to_u32 (val i)) s') l s.

(** The zero stores to the taps [min(L,N) .. N-1], ascending. *)
Definition pad_writes {P : Platform} (Inst : FirStereo_Config) (Length : Z)
  : list Event :=
  map (fun i => EvWrite (coeff_addr Inst i) 0)
      (zrange (Z.min Length (NumTaps Inst)) (NumTaps Inst)).

(** The stores of the supplied values to the taps [0 .. min(L,N)-1],
    ascending. *)
Definition value_writes {P : Platform} (Inst : FirStereo_Config)
           (CoeffArray : list Z) (Length : Z) : list Event :=
  map (fun i => coeff_write Inst i (array_get CoeffArray i))
      (zrange 0 (Z.min Length (NumTaps Inst))).

Definition is_read (e : Event) : bool :=
  match e with EvRead _ _ => true | EvWrite _ _ => false end.

Definition count_reads (tr : list Event) : nat :=
  length (filter is_read tr).

(** Values stored by a log, oldest first. *)
Definition written_values (tr : list Event) : list Z :=
  flat_map (fun e => match e with EvWrite _ v => [v] | EvRead _ _ => [] end) tr.

(** Bits 2..31 of a CTRL word. *)
Definition reserved_bits (v : Z) : Z := Z.shiftr v 2.

(** "The value stored to CTRL always has bits 2..31 equal to zero." *)
Definition stores_mask_reserved (tr : list Event) : Prop :=
  forall v, In v (written_values tr) -> reserved_bits v = 0.

(** [e] is a store to the slot of some tap with index in [lo, hi). *)
Definition writes_tap_in {P : Platform} (Inst : FirStereo_Config)
           (lo hi : Z) (e : Event) : bool :=
  match e with
  | EvWrite a _ => existsb (Z.eqb a) (map (coeff_addr Inst) (zrange lo hi))
  | EvRead _ _ => false
  end.

(** In [tr], no [Q]-event is followed by a [P]-event: every [P]-event
    comes before every [Q]-event. *)
Fixpoint all_before (Pe Qe : Event -> bool) (tr : list Event) : bool :=
  match tr with
  | [] => true
  | e :: tr' => (negb (Qe e) || negb (existsb Pe tr')) && all_before Pe Qe tr'
  end.

(** "The supplied-value writes precede the zero-padding writes." *)
Definition values_before_padding {P : Platform} (Inst : FirStereo_Config)
           (Length : Z) (tr : list Event) : bool :=
  let limit := Z.min Length (NumTaps Inst) in
  all_before (writes_tap_in Inst 0 limit)
             (writes_tap_in Inst limit (NumTaps Inst)) tr.

(** The converse order. *)
Definition padding_before_values {P : Platform} (Inst : FirStereo_Config)
           (Length : Z) (tr : list Event) : bool :=
  let limit := Z.min Length (NumTaps Inst) in
  all_before (writes_tap_in Inst limit (NumTaps Inst))
             (writes_tap_in Inst 0 limit) tr.

(** The log of scenario S1: one CTRL read, then three CTRL writes, the
    first with ENABLE=0, the second with CLEAR=1, the third with CLEAR=0,
    and nothing else. *)
Definition s1_log (ctrl : Z) (tr : list Event) : Prop :=
  exists r w1 w2 w3,
    tr = [EvRead ctrl r; EvWrite ctrl w1; EvWrite ctrl w2; EvWrite ctrl w3]
    /\ Z.testbit w1 0 = false
    /\ Z.testbit w2 1 = true
    /\ Z.testbit w3 1 = false.

(** The coefficient window does not wrap around onto CTRL: with 32-bit
    addresses tap [0x3FFFFFFC] would sit at [base + 2^32 = base]. *)
Definition window_fits {P : Platform} (Inst : FirStereo_Config) : Prop :=
  match ptr_width with
  | Ptr32 => NumTaps Inst <= 0x3FFFFFFC
  | Ptr64 => True
  end.

(** ** The register file: CTRL bits and API calls *)

Definition enable_bit (w : PtrWidth) (Inst : FirStereo_Config) (m : Z -> Z)
  : bool :=
  Z.testbit (m (ctrl_addr (P := RegFile w) Inst)) 0.

Definition clear_bit (w : PtrWidth) (Inst : FirStereo_Config) (m : Z -> Z)
  : bool :=
  Z.testbit (m (ctrl_addr (P := RegFile w) Inst)) 1.

(** A call of the API after init, with arguments of the C types. *)
Inductive Op : Type :=
| OpEnable (Enable : Z)
| OpSoftReset
| OpSetCoeff (TapIndex Value : Z)
| OpGetCoeff (TapIndex : Z)
| OpLoadConfig (CoeffArray : list Z) (Length : Z).

Definition op_typed (o : Op) : Prop :=
  match o with
  | OpEnable e => 0 <= e < 2 ^ 8
  | OpSoftReset => True
  | OpSetCoeff i v => is_u32 i /\ is_s16 v
  | OpGetCoeff i => is_u32 i
  | OpLoadConfig A L => is_u32 L /\ Forall is_s16 A
  end.

(** The register file after the call. *)
Definition exec_op (w : PtrWidth) (Inst : FirStereo_Config) (o : Op)
           (m : Z -> Z) : Z -> Z :=
  match o with
  | OpEnable e => final_dev (FIR_Enable (P := RegFile w) Inst e m)
  | OpSoftReset => final_dev (FIR_SoftReset (P := RegFile w) Inst m)
  | OpSetCoeff i v => final_dev (FIR_SetCoeff (P := RegFile w) Inst i v m)
  | OpGetCoeff i => final_dev (FIR_GetCoeff (P := RegFile w) Inst i m)
  | OpLoadConfig A L => final_dev (FIR_LoadConfig (P := RegFile w) Inst A L m)
  end.

(** The register files reachable once [FIR_Init] has succeeded on the
    descriptor slot [p] with base address [Base] and [Taps] taps. *)
Inductive reachable (w : PtrWidth) (Base Taps : Z) : (Z -> Z) -> Prop :=
| reach_init (p : nat) (h : Heap) (m0 : Z -> Z) :
    reachable w Base Taps
      (final_dev (FIR_Init (P := RegFile w) (Some p) Base Taps h m0))
| reach_call (o : Op) (m : Z -> Z) :
    reachable w Base Taps m ->
    op_typed o ->
    reachable w Base Taps
      (exec_op w (ready_config Base Taps) o m).

(** ** The register window and the calls on any platform *)

Definition ev_addr (e : Event) : Z :=
  match e with EvRead a _ => a | EvWrite a _ => a end.

(** The register window lies in the address space: neither
    [base + 0x10 + 4 * N] nor any address below it wraps. *)
Definition window_in_space {P : Platform} (Inst : FirStereo_Config) : Prop :=
  0 <= BaseAddress Inst
  /\ BaseAddress Inst + FIR_MEM_COEFF_OFFSET + 4 * NumTaps Inst
     <= 2 ^ ptr_bits ptr_width.

(** [a] is the address of CTRL or of a word-aligned slot of the coefficient
    memory of the instance. *)
Definition in_window (Inst : FirStereo_Config) (a : Z) : Prop :=
  a = BaseAddress Inst + FIR_REG_CTRL_OFFSET
  \/ (BaseAddress Inst + FIR_MEM_COEFF_OFFSET <= a
        < BaseAddress Inst + FIR_MEM_COEFF_OFFSET + 4 * NumTaps Inst
      /\ (a - BaseAddress Inst) mod 4 = 0).

(** A call of the API on any platform, its result dropped. *)
Definition run_op {P : Platform} (Inst : FirStereo_Config) (o : Op) : M unit :=
  match o with
  | OpEnable e => FIR_Enable Inst e
  | OpSoftReset => FIR_SoftReset Inst
  | OpSetCoeff i v => FIR_SetCoeff Inst i v
  | OpGetCoeff i => bind (FIR_GetCoeff Inst i) (fun _ => ret tt)
  | OpLoadConfig A L => FIR_LoadConfig Inst A L
  end.

(** Replaying a log on the register file [m]: every store to an address
    other than [ctrl] finds bit 0 (ENABLE) of the word at [ctrl] low. *)
Fixpoint stores_while_disabled (ctrl : Z) (m : Z -> Z) (tr : list Event)
  : bool :=
  match tr with
  | [] => true
  | EvRead _ _ :: tr' => stores_while_disabled ctrl m tr'
  | EvWrite a v :: tr' =>
      ((a =? ctrl) || negb (Z.testbit (m ctrl) 0))
      && stores_while_disabled ctrl (reg_store a v m) tr'
  end.

(** ** Inputs of the concrete scenarios *)

(** Base address of the scenarios. *)
Definition scenario_base : Z := 0x40000000.

(** Ready descriptors with 8 and with 4 taps. *)
Definition desc8 : FirStereo_Config := ready_config scenario_base 8.
Definition desc4 : FirStereo_Config := ready_config scenario_base 4.

(** A ready descriptor whose last tap, index [0x3FFFFFFC], lies [2^32] bytes
    above the base address. *)
Definition wide_taps : Z := 0x3FFFFFFD.
Definition wide_desc : FirStereo_Config := ready_config scenario_base wide_taps.

(** Register files reading as 0, and as 1 (enabled), everywhere. *)
Definition regs_zero : Z -> Z := fun _ => 0.
Definition regs_enabled : Z -> Z := fun _ => 1.

(** Descriptor storage before any init. *)
Definition blank_heap : Heap := fun _ => mkConfig 0 0 0.

(* ========================================================================= *)
(** * Machine arithmetic *)
(* ========================================================================= *)

Lemma to_u32_is_u32 x : is_u32 (to_u32 x).
Proof. unfold is_u32, to_u32. apply Z.mod_pos_bound. lia. Qed.

Lemma to_u32_small x : is_u32 x -> to_u32 x = x.
Proof. unfold is_u32, to_u32. intros H. apply Z.mod_small. exact H. Qed.

Lemma to_u32_idem x : to_u32 (to_u32 x) = to_u32 x.
Proof. apply to_u32_small, to_u32_is_u32. Qed.

Lemma ptr_modulus_pos w : 0 < 2 ^ ptr_bits w.
Proof. destruct w; simpl; lia. Qed.

Lemma to_uintptr_idem w x : to_uintptr w (to_uintptr w x) = to_uintptr w x.
Proof. unfold to_uintptr. apply Z.mod_mod. pose proof (ptr_modulus_pos w). lia. Qed.

Lemma to_uintptr_plus_0 w x : to_uintptr w (to_uintptr w x + 0) = to_uintptr w x.
Proof. rewrite Z.add_0_r. apply to_uintptr_idem. Qed.

Lemma to_u32_land x y : to_u32 (Z.land x y) = Z.land (to_u32 x) (to_u32 y).
Proof.
  unfold to_u32. rewrite <- !Z.land_ones by lia.
  apply Z.bits_inj'. intros n Hn. rewrite !Z.land_spec.
  destruct (Z.testbit x n), (Z.testbit y n), (Z.testbit (Z.ones 32) n); reflexivity.
Qed.

Lemma to_u32_lor x y : to_u32 (Z.lor x y) = Z.lor (to_u32 x) (to_u32 y).
Proof.
  unfold to_u32. rewrite <- !Z.land_ones by lia.
  apply Z.bits_inj'. intros n Hn. rewrite !Z.land_spec, !Z.lor_spec, !Z.land_spec.
  destruct (Z.testbit x n), (Z.testbit y n), (Z.testbit (Z.ones 32) n); reflexivity.
Qed.

Lemma is_u32_fix x : to_u32 x = x -> is_u32 x.
Proof. intros <-. apply to_u32_is_u32. Qed.

Lemma is_u32_land x y : is_u32 x -> is_u32 y -> is_u32 (Z.land x y).
Proof.
  intros Hx Hy. apply is_u32_fix.
  rewrite to_u32_land, !to_u32_small by assumption. reflexivity.
Qed.

Lemma is_u32_lor x y : is_u32 x -> is_u32 y -> is_u32 (Z.lor x y).
Proof.
  intros Hx Hy. apply is_u32_fix.
  rewrite to_u32_lor, !to_u32_small by assumption. reflexivity.
Qed.

Lemma not_enable_bit : not_u32 FIR_CTRL_ENABLE_BIT = 0xFFFFFFFE.
Proof. reflexivity. Qed.

Lemma not_clear_bit : not_u32 FIR_CTRL_CLEAR_BIT = 0xFFFFFFFD.
Proof. reflexivity. Qed.

Lemma to_u32_testbit x k : 0 <= k < 32 -> Z.testbit (to_u32 x) k = Z.testbit x k.
Proof. intros H. unfold to_u32. apply Z.mod_pow2_bits_low. lia. Qed.

(** A 16-bit two's-complement value survives widening to 32 bits and
    truncation back. *)
Lemma to_s16_to_u32 v : is_s16 v -> to_s16 (to_u32 v) = v.
Proof.
  unfold is_s16, to_s16, to_u32. intros H.
  assert (E : (v mod 2 ^ 32 + 2 ^ 15) mod 2 ^ 16 = (v + 2 ^ 15) mod 2 ^ 16).
  { rewrite (Z.mod_eq v (2 ^ 32)) by lia.
    replace (v - 2 ^ 32 * (v / 2 ^ 32) + 2 ^ 15)
      with (v + 2 ^ 15 + (- (v / 2 ^ 32) * 2 ^ 16) * 2 ^ 16) by lia.
    apply Z.mod_add. lia. }
  rewrite E, Z.mod_small by lia. lia.
Qed.

(* ========================================================================= *)
(** * What each function does on an arbitrary platform *)
(* ========================================================================= *)

Section Runs.
Context {P : Platform}.
Implicit Types (d : FirStereo_Config) (s : Device).

Lemma ctrl_read_is_u32 d s : is_u32 (ctrl_read d s).
Proof. apply to_u32_is_u32. Qed.

Lemma bind_ext {A B} (m : M A) (f g : A -> M B) s :
  (forall a s', f a s' = g a s') -> bind m f s = bind m g s.
Proof. intros E. unfold bind. rewrite E. reflexivity. Qed.

Lemma run_eta {A} (r : Run A) : r = mkRun (ret_val r) (final_dev r) (trace r).
Proof. destruct r. reflexivity. Qed.

Lemma bind_step {A B} (m : M A) (f : A -> M B) s a s1 t1 b s2 t2 :
  m s = mkRun a s1 t1 ->
  f a s1 = mkRun b s2 t2 ->
  bind m f s = mkRun b s2 (t1 ++ t2).
Proof. intros Hm Hf. unfold bind. rewrite Hm. cbn. rewrite Hf. reflexivity. Qed.

Lemma FIR_Enable_run d e s :
  FIR_Enable d e s =
  let r := ctrl_read d s in
  let w := if e =? 0 then Z.land r 0xFFFFFFFE else Z.lor r 1 in
  mkRun tt (dev_out32 (ctrl_addr d) w (after_ctrl_read d s))
        [EvRead (ctrl_addr d) r; EvWrite (ctrl_addr d) w].
Proof.
  unfold FIR_Enable, FIR_ReadReg, FIR_WriteReg, bind, Xil_In32, Xil_Out32.
  cbn [ret_val final_dev trace app].
  fold (ctrl_addr d). fold (ctrl_read d s). fold (after_ctrl_read d s).
  rewrite not_enable_bit.
  change FIR_CTRL_ENABLE_BIT with 1.
  assert (Hw : forall w, is_u32 w -> to_u32 w = w) by apply to_u32_small.
  pose proof (ctrl_read_is_u32 d s) as Hr.
  destruct (e =? 0); cbv zeta; rewrite Hw; try reflexivity.
  - apply is_u32_land; [exact Hr | unfold is_u32; lia].
  - apply is_u32_lor; [exact Hr | unfold is_u32; lia].
Qed.

Lemma FIR_SoftReset_run d s :
  FIR_SoftReset d s =
  let r := ctrl_read d s in
  let c := ctrl_addr d in
  mkRun tt
        (dev_out32 c (Z.land r 0xFFFFFFFD)
                   (dev_out32 c (Z.lor r 2) (after_ctrl_read d s)))
        [EvRead c r; EvWrite c (Z.lor r 2); EvWrite c (Z.land r 0xFFFFFFFD)].
Proof.
  unfold FIR_SoftReset, FIR_ReadReg, FIR_WriteReg, bind, Xil_In32, Xil_Out32.
  cbn [ret_val final_dev trace app].
  fold (ctrl_addr d). fold (ctrl_read d s). fold (after_ctrl_read d s).
  rewrite not_clear_bit.
  change FIR_CTRL_CLEAR_BIT with 2.
  pose proof (ctrl_read_is_u32 d s) as Hr.
  cbv zeta. rewrite !to_u32_small; try reflexivity;
    first [apply is_u32_land | apply is_u32_lor];
    solve [exact Hr | unfold is_u32; lia].
Qed.

Lemma FIR_SetCoeff_in_range d i v s :
  i < NumTaps d ->
  FIR_SetCoeff d i v s =
  mkRun tt (dev_out32 (coeff_addr d i) (to_u32 v) s) [coeff_write d i v].
Proof.
  intros Hi. unfold FIR_SetCoeff.
  destruct (Z.geb_spec i (NumTaps d)) as [H | _]; [lia |].
  unfold FIR_WriteReg, Xil_Out32, coeff_write.
  rewrite to_u32_idem.
  replace (to_uintptr ptr_width (coeff_addr d i + 0)) with (coeff_addr d i)
    by (unfold coeff_addr; rewrite to_uintptr_plus_0; reflexivity).
  reflexivity.
Qed.

Lemma FIR_SetCoeff_out_of_range d i v s :
  NumTaps d <= i -> FIR_SetCoeff d i v s = mkRun tt s [].
Proof.
  intros Hi. unfold FIR_SetCoeff.
  destruct (Z.geb_spec i (NumTaps d)) as [_ | H]; [reflexivity | lia].
Qed.

Lemma FIR_GetCoeff_in_range d i s :
  i < NumTaps d ->
  FIR_GetCoeff d i s =
  let w := to_u32 (fst (dev_in32 (coeff_addr d i) s)) in
  mkRun (to_s16 w) (snd (dev_in32 (coeff_addr d i) s))
        [EvRead (coeff_addr d i) w].
Proof.
  intros Hi. unfold FIR_GetCoeff.
  destruct (Z.geb_spec i (NumTaps d)) as [H | _]; [lia |].
  unfold FIR_ReadReg, bind, ret, Xil_In32. cbn [ret_val final_dev trace app].
  replace (to_uintptr ptr_width (coeff_addr d i + 0)) with (coeff_addr d i)
    by (unfold coeff_addr; rewrite to_uintptr_plus_0; reflexivity).
  reflexivity.
Qed.

Lemma FIR_GetCoeff_out_of_range d i s :
  NumTaps d <= i -> FIR_GetCoeff d i s = mkRun 0 s [].
Proof.
  intros Hi. unfold FIR_GetCoeff.
  destruct (Z.geb_spec i (NumTaps d)) as [_ | H]; [reflexivity | lia].
Qed.

End Runs.

(* ========================================================================= *)
(** * Counted loops *)
(* ========================================================================= *)

Lemma zrange_nil lo hi : hi <= lo -> zrange lo hi = [].
Proof.
  intros H. unfold zrange.
  replace (Z.to_nat (hi - lo)) with O by lia. reflexivity.
Qed.

Lemma zrange_cons lo hi : lo < hi -> zrange lo hi = lo :: zrange (lo + 1) hi.
Proof.
  intros H. unfold zrange.
  replace (Z.to_nat (hi - lo)) with (S (Z.to_nat (hi - (lo + 1)))) by lia.
  cbn [seq map]. f_equal; [lia |].
  rewrite <- seq_shift, map_map.
  apply map_ext. intros k. lia.
Qed.

Lemma zrange_In lo hi i : In i (zrange lo hi) <-> lo <= i < hi.
Proof.
  unfold zrange. rewrite in_map_iff. split.
  - intros [k [<- Hk]]. apply in_seq in Hk. lia.
  - intros H. exists (Z.to_nat (i - lo)). split; [lia |].
    apply in_seq. lia.
Qed.

Section Loops.
Context {P : Platform}.
Implicit Types (d : FirStereo_Config) (s : Device).

(** With a bound that is a [u32] the increment never wraps, and the loop
    visits [lo .. hi-1] in order as soon as the fuel covers them. *)
Lemma for_u32_foreach (body : Z -> M unit) hi :
  hi < 2 ^ 32 ->
  forall fuel lo s,
    0 <= lo ->
    (Z.to_nat (hi - lo) <= fuel)%nat ->
    for_u32 fuel lo hi body s = foreach (zrange lo hi) body s.
Proof.
  intros Hhi. induction fuel as [| fuel IH]; intros lo s Hlo Hfuel.
  - rewrite zrange_nil by lia. reflexivity.
  - cbn [for_u32]. destruct (Z.ltb_spec lo hi) as [Hlt | Hge].
    + rewrite zrange_cons by exact Hlt. cbn [foreach].
      apply bind_ext. intros _ s'.
      rewrite to_u32_small by (unfold is_u32; lia).
      apply IH; lia.
    + rewrite zrange_nil by lia. reflexivity.
Qed.

(** The loops terminate by their own test: extra fuel is never used. *)
Lemma for_u32_fuel (body : Z -> M unit) lo hi fuel s :
  0 <= lo -> hi < 2 ^ 32 ->
  (Z.to_nat (hi - lo) <= fuel)%nat ->
  for_u32 fuel lo hi body s = for_u32 (Z.to_nat (hi - lo)) lo hi body s.
Proof.
  intros Hlo Hhi Hfuel.
  rewrite !for_u32_foreach by (try exact Hhi; try exact Hlo; lia).
  reflexivity.
Qed.

(** The device after storing [val i] to each tap of [l], in order. *)
Lemma foreach_SetCoeff d (val : Z -> Z) l :
  (forall i, In i l -> i < NumTaps d) ->
  forall s,
    foreach l (fun i => FIR_SetCoeff d i (val i)) s =
    mkRun tt
          (store_taps d val l s)
          (map (fun i => coeff_write d i (val i)) l).
Proof.
  unfold store_taps. induction l as [| i l IH]; intros Hl s.
  - reflexivity.
  - cbn [foreach]. unfold bind.
    rewrite FIR_SetCoeff_in_range by (apply Hl; left; reflexivity).
    cbn [ret_val final_dev trace].
    rewrite IH by (intros j Hj; apply Hl; right; exact Hj).
    reflexivity.
Qed.

Lemma enable_test x : (Z.land x FIR_CTRL_ENABLE_BIT =? 0) = negb (Z.testbit x 0).
Proof.
  change FIR_CTRL_ENABLE_BIT with (Z.ones 1).
  rewrite Z.land_ones by lia. rewrite Z.bit0_eqb.
  change (2 ^ 1) with 2.
  pose proof (Z.mod_pos_bound x 2 ltac:(lia)) as Hb.
  destruct (Z.eqb_spec (x mod 2) 0) as [E | E];
    destruct (Z.eqb_spec (x mod 2) 1) as [E' | E']; try reflexivity; lia.
Qed.

(** [FIR_LoadConfig], step by step, for any fuel that covers the taps. *)
Lemma FIR_LoadConfig_fuel_run fuel d A L s :
  is_u32 (NumTaps d) -> is_u32 L ->
  (Z.to_nat (NumTaps d) <= fuel)%nat ->
  FIR_LoadConfig_fuel fuel d A L s =
  let c0 := ctrl_read d s in
  let r1 := FIR_Enable d 0 (after_ctrl_read d s) in
  let limit := Z.min L (NumTaps d) in
  let s3 := store_taps d (fun _ => 0) (zrange limit (NumTaps d)) (final_dev r1) in
  let s4 := store_taps d (array_get A) (zrange 0 limit) s3 in
  let r5 := if Z.testbit c0 0 then FIR_Enable d 1 s4 else mkRun tt s4 [] in
  mkRun tt (final_dev r5)
        (EvRead (ctrl_addr d) c0
           :: trace r1 ++ pad_writes d L ++ value_writes d A L ++ trace r5).
Proof.
  intros HN HL Hfuel. unfold is_u32 in HN, HL.
  unfold FIR_LoadConfig_fuel.
  assert (Elim : (if L <? NumTaps d then L else NumTaps d) = Z.min L (NumTaps d))
    by (destruct (Z.ltb_spec L (NumTaps d)); lia).
  rewrite Elim. set (limit := Z.min L (NumTaps d)).
  etransitivity.
  { eapply bind_step.
    - unfold FIR_ReadReg, Xil_In32.
      fold (ctrl_addr d). fold (ctrl_read d s). fold (after_ctrl_read d s).
      reflexivity.
    - cbv beta. rewrite enable_test. eapply bind_step.
      + apply run_eta.
      + eapply bind_step.
        * rewrite for_u32_foreach by lia.
          apply (foreach_SetCoeff d (fun _ => 0)).
          intros i Hi. apply zrange_In in Hi. lia.
        * eapply bind_step.
          -- rewrite for_u32_foreach by lia.
             apply (foreach_SetCoeff d (array_get A)).
             intros i Hi. apply zrange_In in Hi. lia.
          -- apply run_eta. }
  unfold pad_writes, value_writes. fold limit. cbv zeta.
  destruct (Z.testbit (ctrl_read d s) 0); cbn [negb Z.eqb app].
  - match goal with
    | |- context [ret_val ?r] => destruct (ret_val r)
    end.
    reflexivity.
  - reflexivity.
Qed.

(** Both loops of [FIR_LoadConfig] stop by their own test: more fuel gives
    the same run. *)
Lemma FIR_LoadConfig_fuel_enough fuel d A L s :
  is_u32 (NumTaps d) -> is_u32 L ->
  (Z.to_nat (NumTaps d) <= fuel)%nat ->
  FIR_LoadConfig_fuel fuel d A L s = FIR_LoadConfig d A L s.
Proof.
  intros HN HL Hfuel. unfold FIR_LoadConfig.
  rewrite !FIR_LoadConfig_fuel_run by (try assumption; lia).
  reflexivity.
Qed.

Lemma FIR_LoadConfig_run d A L s :
  is_u32 (NumTaps d) -> is_u32 L ->
  FIR_LoadConfig d A L s =
  let c0 := ctrl_read d s in
  let r1 := FIR_Enable d 0 (after_ctrl_read d s) in
  let limit := Z.min L (NumTaps d) in
  let s3 := store_taps d (fun _ => 0) (zrange limit (NumTaps d)) (final_dev r1) in
  let s4 := store_taps d (array_get A) (zrange 0 limit) s3 in
  let r5 := if Z.testbit c0 0 then FIR_Enable d 1 s4 else mkRun tt s4 [] in
  mkRun tt (final_dev r5)
        (EvRead (ctrl_addr d) c0
           :: trace r1 ++ pad_writes d L ++ value_writes d A L ++ trace r5).
Proof.
  intros HN HL. unfold FIR_LoadConfig.
  apply FIR_LoadConfig_fuel_run; [assumption | assumption | lia].
Qed.

End Loops.

(* ========================================================================= *)
(** * Properties on an arbitrary platform *)
(* ========================================================================= *)

Section Contract.
Context {P : Platform}.
Implicit Types (d : FirStereo_Config) (s : Device).

Lemma land_clears_bit0 x : Z.testbit (Z.land x 0xFFFFFFFE) 0 = false.
Proof. rewrite Z.land_spec. apply andb_false_r. Qed.

Lemma land_keeps_upper x k :
  is_u32 x -> 0 < k -> Z.testbit (Z.land x 0xFFFFFFFE) k = Z.testbit x k.
Proof.
  intros Hx Hk. rewrite Z.land_spec.
  destruct (Z.ltb_spec k 32) as [Hlt | Hge].
  - replace (Z.testbit 0xFFFFFFFE k) with true; [apply andb_true_r |].
    change 0xFFFFFFFE with (Z.shiftl (Z.ones 31) 1).
    rewrite Z.shiftl_spec by lia. rewrite Z.ones_spec_low by lia. reflexivity.
  - replace (Z.testbit x k) with false; [reflexivity |].
    rewrite <- (to_u32_small x Hx). unfold to_u32.
    rewrite Z.mod_pow2_bits_high by lia. reflexivity.
Qed.

Lemma lor_sets_bit0 x : Z.testbit (Z.lor x 1) 0 = true.
Proof. rewrite Z.lor_spec. apply orb_true_r. Qed.

Lemma lor_keeps_upper x k : 0 < k -> Z.testbit (Z.lor x 1) k = Z.testbit x k.
Proof.
  intros Hk. rewrite Z.lor_spec.
  change 1 with (Z.ones 1) at 1. rewrite Z.ones_spec_high by lia.
  apply orb_false_r.
Qed.

Lemma FIR_LoadConfig_trace d A L s :
  is_u32 (NumTaps d) -> is_u32 L ->
  let c := ctrl_addr d in
  let c0 := ctrl_read d s in
  let c1 := ctrl_read d (after_ctrl_read d s) in
  exists c2,
    trace (FIR_LoadConfig d A L s) =
    [EvRead c c0; EvRead c c1; EvWrite c (Z.land c1 0xFFFFFFFE)]
      ++ pad_writes d L
      ++ value_writes d A L
      ++ (if Z.testbit c0 0
          then [EvRead c c2; EvWrite c (Z.lor c2 1)]
          else [])
    /\ is_u32 c2.
Proof.
  intros HN HL. cbv zeta.
  rewrite FIR_LoadConfig_run by assumption. cbv zeta. cbn [trace].
  rewrite !FIR_Enable_run. cbv zeta. cbn [trace final_dev Z.eqb].
  destruct (Z.testbit (ctrl_read d s) 0).
  - eexists. split; [reflexivity | apply ctrl_read_is_u32].
  - exists 0. split; [reflexivity | unfold is_u32; lia].
Qed.

(** C1. [FIR_LoadConfig], for any coefficient array and length [L] on a
    descriptor with [N] taps, performs the safe-reconfiguration sequence:
    it samples CTRL ([c0]), disables the core by a read-modify-write of CTRL
    that clears ENABLE and keeps every other bit, stores exact zero to each
    tap in [min(L,N), N), stores the supplied values to the taps
    [0, min(L,N)) in ascending order, and ends with a read-modify-write of
    CTRL setting ENABLE exactly when ENABLE was high in [c0]; these are all
    its bus accesses, so CLEAR is never pulsed. *)
Theorem FIR_LoadConfig_safe_sequence d A L s :
  is_u32 (NumTaps d) -> is_u32 L ->
  let c := ctrl_addr d in
  let limit := Z.min L (NumTaps d) in
  exists c0 c1 c2,
    trace (FIR_LoadConfig d A L s) =
      [EvRead c c0; EvRead c c1; EvWrite c (Z.land c1 0xFFFFFFFE)]
        ++ map (fun i => EvWrite (coeff_addr d i) 0) (zrange limit (NumTaps d))
        ++ map (fun i => EvWrite (coeff_addr d i) (to_u32 (array_get A i)))
               (zrange 0 limit)
        ++ (if Z.testbit c0 0
            then [EvRead c c2; EvWrite c (Z.lor c2 1)]
            else [])
    /\ c0 = ctrl_read d s
    /\ Z.testbit (Z.land c1 0xFFFFFFFE) 0 = false
    /\ (forall k, 0 < k ->
          Z.testbit (Z.land c1 0xFFFFFFFE) k = Z.testbit c1 k)
    /\ Z.testbit (Z.lor c2 1) 0 = true
    /\ (forall k, 0 < k -> Z.testbit (Z.lor c2 1) k = Z.testbit c2 k).
Proof.
  intros HN HL c limit.
  destruct (FIR_LoadConfig_trace d A L s HN HL) as [c2 [Htr Hc2]].
  exists (ctrl_read d s), (ctrl_read d (after_ctrl_read d s)), c2.
  split; [exact Htr |]. split; [reflexivity |].
  split; [apply land_clears_bit0 |].
  split; [intros k Hk; apply land_keeps_upper;
          [apply ctrl_read_is_u32 | exact Hk] |].
  split; [apply lor_sets_bit0 |].
  intros k Hk. apply lor_keeps_upper. exact Hk.
Qed.

(** C2, amended.  For [L < N] the log of [FIR_LoadConfig] is: the CTRL
    accesses that disable the core, then the zero stores to the taps
    [L, N) in ascending order, and only then the stores of the supplied
    values to the taps [0, L) in ascending order, then the CTRL accesses
    that re-enable the core iff ENABLE was high at entry.  The padding
    precedes the supplied values. *)
Theorem FIR_LoadConfig_padding_first d A L s :
  is_u32 (NumTaps d) -> 0 <= L -> L < NumTaps d ->
  let c := ctrl_addr d in
  exists c0 c1 c2,
    trace (FIR_LoadConfig d A L s) =
      [EvRead c c0; EvRead c c1; EvWrite c (Z.land c1 0xFFFFFFFE)]
        ++ map (fun i => EvWrite (coeff_addr d i) 0) (zrange L (NumTaps d))
        ++ map (fun i => EvWrite (coeff_addr d i) (to_u32 (array_get A i)))
               (zrange 0 L)
        ++ (if Z.testbit c0 0
            then [EvRead c c2; EvWrite c (Z.lor c2 1)]
            else [])
    /\ Z.testbit (Z.land c1 0xFFFFFFFE) 0 = false
    /\ Z.testbit (Z.lor c2 1) 0 = true.
Proof.
  intros HN HL0 HLN c.
  assert (HL : is_u32 L) by (unfold is_u32 in *; lia).
  destruct (FIR_LoadConfig_trace d A L s HN HL) as [c2 [Htr Hc2]].
  exists (ctrl_read d s), (ctrl_read d (after_ctrl_read d s)), c2.
  split; [| split; [apply land_clears_bit0 | apply lor_sets_bit0]].
  rewrite Htr. unfold pad_writes, value_writes, coeff_write.
  rewrite Z.min_l by lia. reflexivity.
Qed.

Lemma reserved_bits_land x m :
  reserved_bits m = reserved_bits 0xFFFFFFFF -> is_u32 x ->
  reserved_bits (Z.land x m) = reserved_bits x.
Proof.
  unfold reserved_bits. intros Hm Hx.
  rewrite Z.shiftr_land, Hm.
  change (Z.shiftr 0xFFFFFFFF 2) with (Z.ones 30).
  rewrite Z.land_ones by lia.
  apply Z.mod_small. unfold is_u32 in Hx.
  rewrite Z.shiftr_div_pow2 by lia. split.
  - apply Z.div_pos; lia.
  - apply Z.div_lt_upper_bound; lia.
Qed.

Lemma reserved_bits_lor x b :
  reserved_bits b = 0 -> reserved_bits (Z.lor x b) = reserved_bits x.
Proof.
  unfold reserved_bits. intros Hb.
  rewrite Z.shiftr_lor, Hb. apply Z.lor_0_r.
Qed.

(** C3, amended.  The read-modify-writes of CTRL in [FIR_Enable] and
    [FIR_SoftReset] do not mask the reserved bits: every value they store
    to CTRL carries in bits 2..31 exactly the bits 2..31 of the word the
    preceding CTRL read returned. *)
Theorem ctrl_rmw_preserves_reserved d e s :
  (exists r w,
     trace (FIR_Enable d e s) = [EvRead (ctrl_addr d) r; EvWrite (ctrl_addr d) w]
     /\ reserved_bits w = reserved_bits r)
  /\ (exists r w1 w2,
        trace (FIR_SoftReset d s) =
          [EvRead (ctrl_addr d) r; EvWrite (ctrl_addr d) w1;
           EvWrite (ctrl_addr d) w2]
        /\ reserved_bits w1 = reserved_bits r
        /\ reserved_bits w2 = reserved_bits r).
Proof.
  pose proof (ctrl_read_is_u32 d s) as Hr. split.
  - rewrite FIR_Enable_run. cbv zeta. cbn [trace].
    eexists. eexists. split; [reflexivity |].
    destruct (e =? 0).
    + apply reserved_bits_land; [reflexivity | exact Hr].
    + apply reserved_bits_lor. reflexivity.
  - rewrite FIR_SoftReset_run. cbv zeta. cbn [trace].
    eexists. eexists. eexists. split; [reflexivity |]. split.
    + apply reserved_bits_lor. reflexivity.
    + apply reserved_bits_land; [reflexivity | exact Hr].
Qed.

(** C5.  For an index [i >= N]: [FIR_SetCoeff] performs no bus access and
    leaves the device as it was; [FIR_GetCoeff] returns 0 and performs no
    bus access either, hence at most one read. *)
Theorem out_of_range_is_silent d i v s :
  NumTaps d <= i ->
  trace (FIR_SetCoeff d i v s) = []
  /\ final_dev (FIR_SetCoeff d i v s) = s
  /\ ret_val (FIR_GetCoeff d i s) = 0
  /\ trace (FIR_GetCoeff d i s) = []
  /\ (count_reads (trace (FIR_GetCoeff d i s)) <= 1)%nat.
Proof.
  intros Hi.
  rewrite FIR_SetCoeff_out_of_range, FIR_GetCoeff_out_of_range by exact Hi.
  cbn. repeat split; lia.
Qed.

Lemma FIR_Init_slot p Base Taps (h : Heap) s :
  snd (ret_val (FIR_Init (Some p) Base Taps h s)) p = ready_config Base Taps
  /\ forall q, q <> p ->
       snd (ret_val (FIR_Init (Some p) Base Taps h s)) q = h q.
Proof.
  cbn. unfold heap_update. split.
  - rewrite !Nat.eqb_refl. reflexivity.
  - intros q Hq. apply Nat.eqb_neq in Hq. rewrite !Hq. reflexivity.
Qed.

Lemma FIR_Init_run p Base Taps (h : Heap) s :
  let d := ready_config Base Taps in
  let r1 := FIR_Enable d 0 s in
  let r2 := FIR_SoftReset d (final_dev r1) in
  final_dev (FIR_Init (Some p) Base Taps h s) = final_dev r2
  /\ trace (FIR_Init (Some p) Base Taps h s) = trace r1 ++ trace r2
  /\ fst (ret_val (FIR_Init (Some p) Base Taps h s)) = XST_SUCCESS.
Proof.
  cbv zeta. unfold FIR_Init.
  cbv zeta. set (h3 := heap_update p (set_IsReady _) _).
  assert (E : h3 p = ready_config Base Taps).
  { subst h3. unfold heap_update. rewrite !Nat.eqb_refl. reflexivity. }
  rewrite E. unfold bind, ret. cbn [ret_val final_dev trace fst].
  rewrite app_nil_r. repeat split.
Qed.

(** C8.  [FIR_Init] returns the failure status iff the descriptor pointer is
    NULL.  On failure it performs no bus access and leaves the device and
    every descriptor slot untouched.  On success it returns the success
    status and the slot holds the ready flag and the given base address and
    tap count, whatever they are; no other slot changes. *)
Theorem FIR_Init_status InstancePtr Base Taps (h : Heap) s :
  let r := FIR_Init InstancePtr Base Taps h s in
  (fst (ret_val r) = XST_FAILURE <-> InstancePtr = None)
  /\ (InstancePtr = None ->
        trace r = [] /\ final_dev r = s /\ snd (ret_val r) = h)
  /\ (forall p, InstancePtr = Some p ->
        fst (ret_val r) = XST_SUCCESS
        /\ IsReady (snd (ret_val r) p) = XIL_COMPONENT_IS_READY
        /\ BaseAddress (snd (ret_val r) p) = Base
        /\ NumTaps (snd (ret_val r) p) = Taps
        /\ forall q, q <> p -> snd (ret_val r) q = h q).
Proof.
  cbv zeta. destruct InstancePtr as [p |].
  - destruct (FIR_Init_run p Base Taps h s) as [_ [_ Hst]].
    destruct (FIR_Init_slot p Base Taps h s) as [Hp Hq].
    split; [| split].
    + rewrite Hst. split; intros H; discriminate H.
    + intros H. discriminate H.
    + intros p' Hp'. injection Hp' as <-.
      rewrite Hp. split; [exact Hst |].
      split; [reflexivity |]. split; [reflexivity |].
      split; [reflexivity | exact Hq].
  - split; [| split].
    + split; reflexivity.
    + intros _. repeat split.
    + intros p H. discriminate H.
Qed.

(** C9, amended.  A successful [FIR_Init] performs five bus accesses, all on
    CTRL: a read and a write forcing ENABLE=0 (keeping the other bits),
    then a second read ([FIR_SoftReset] reads CTRL itself) and the CLEAR
    pulse, a write with CLEAR=1 followed by a write with CLEAR=0.  When both
    reads return 0 the three values written are 0x0, 0x2, 0x0. *)
Theorem FIR_Init_trace p Base Taps (h : Heap) s :
  let c := ctrl_addr (ready_config Base Taps) in
  exists r0 r1,
    trace (FIR_Init (Some p) Base Taps h s) =
      [EvRead c r0; EvWrite c (Z.land r0 0xFFFFFFFE);
       EvRead c r1; EvWrite c (Z.lor r1 2); EvWrite c (Z.land r1 0xFFFFFFFD)]
    /\ Z.testbit (Z.land r0 0xFFFFFFFE) 0 = false
    /\ Z.testbit (Z.lor r1 2) 1 = true
    /\ Z.testbit (Z.land r1 0xFFFFFFFD) 1 = false
    /\ (r0 = 0 -> r1 = 0 ->
        written_values (trace (FIR_Init (Some p) Base Taps h s)) = [0; 2; 0]).
Proof.
  cbv zeta.
  destruct (FIR_Init_run p Base Taps h s) as [_ [Htr _]].
  rewrite Htr, FIR_Enable_run, FIR_SoftReset_run. cbv zeta.
  cbn [trace final_dev Z.eqb app].
  eexists. eexists. split; [reflexivity |].
  split; [apply land_clears_bit0 |].
  split; [rewrite Z.lor_spec; apply orb_true_r |].
  split; [rewrite Z.land_spec; apply andb_false_r |].
  intros -> ->. reflexivity.
Qed.

End Contract.

(* ========================================================================= *)
(** * Properties on the register file *)
(* ========================================================================= *)

Lemma reg_store_same a v m : reg_store a v m a = v.
Proof. unfold reg_store. rewrite Z.eqb_refl. reflexivity. Qed.

Lemma reg_store_other a v m x : x <> a -> reg_store a v m x = m x.
Proof.
  intros H. unfold reg_store.
  destruct (Z.eqb_spec x a) as [E | _]; [contradiction | reflexivity].
Qed.

(** A window that lies in the address space does not wrap onto CTRL. *)
Lemma window_in_space_fits {P : Platform} (d : FirStereo_Config) :
  window_in_space d -> window_fits d.
Proof.
  unfold window_in_space, window_fits.
  change FIR_MEM_COEFF_OFFSET with 16.
  destruct ptr_width; cbn [ptr_bits]; intros [Hb Htop]; [lia | exact I].
Qed.

Section OnRegFile.
Variable w : PtrWidth.
Implicit Types (d : FirStereo_Config) (m : Z -> Z).

Local Notation "'RF'" := (RegFile w).

Lemma regfile_ctrl_read d m : ctrl_read (P := RF) d m = to_u32 (m (ctrl_addr (P := RF) d)).
Proof. reflexivity. Qed.

Lemma regfile_after_ctrl_read d m : after_ctrl_read (P := RF) d m = m.
Proof. reflexivity. Qed.

(** Inside a window that fits, no tap shares its address with CTRL. *)
Lemma coeff_addr_not_ctrl d i :
  window_fits (P := RF) d -> 0 <= i < NumTaps d -> coeff_addr (P := RF) d i <> ctrl_addr (P := RF) d.
Proof.
  unfold window_fits, coeff_addr, ctrl_addr, to_uintptr.
  change (@ptr_width RF) with w.
  change FIR_REG_CTRL_OFFSET with 0. change FIR_MEM_COEFF_OFFSET with 16.
  intros Hfit Hi Heq.
  pose proof (ptr_modulus_pos w) as HM.
  pose proof (to_u32_is_u32 (i * 4)) as Ht. unfold is_u32 in Ht.
  set (t := to_u32 (i * 4)) in *. set (B := BaseAddress d) in *.
  set (M := 2 ^ ptr_bits w) in *.
  rewrite Z.add_mod_idemp_l in Heq by lia.
  assert (Hz : (16 + t) mod M = 0).
  { replace (16 + t) with ((B + 16 + t) - (B + 0)) by lia.
    rewrite Zminus_mod, Heq, Z.sub_diag. apply Z.mod_0_l. lia. }
  assert (Hsmall : 0 <= 16 + t < M).
  { destruct w; subst M; cbn [ptr_bits] in *.
    - assert (Et : t = i * 4).
      { subst t. apply to_u32_small. unfold is_u32. lia. }
      lia.
    - lia. }
  rewrite Z.mod_small in Hz by exact Hsmall. lia.
Qed.

Lemma store_taps_other d val l a :
  (forall i, In i l -> coeff_addr (P := RF) d i <> a) ->
  forall m, store_taps (P := RF) d val l m a = m a.
Proof.
  unfold store_taps. induction l as [| i l IH]; intros Hl m.
  - reflexivity.
  - cbn [fold_left]. rewrite IH by (intros j Hj; apply Hl; right; exact Hj).
    apply reg_store_other. intros E. apply (Hl i); [left; reflexivity |].
    symmetry. exact E.
Qed.

(** CTRL after each call, in terms of CTRL before it. *)
Lemma ctrl_after_enable d e m :
  final_dev (FIR_Enable (P := RF) d e m) (ctrl_addr (P := RF) d) =
  if e =? 0 then Z.land (to_u32 (m (ctrl_addr (P := RF) d))) 0xFFFFFFFE
  else Z.lor (to_u32 (m (ctrl_addr (P := RF) d))) 1.
Proof.
  rewrite FIR_Enable_run. cbv zeta. cbn [final_dev].
  rewrite regfile_ctrl_read. apply reg_store_same.
Qed.

Lemma enable_elsewhere d e m x :
  x <> ctrl_addr (P := RF) d -> final_dev (FIR_Enable (P := RF) d e m) x = m x.
Proof.
  intros Hx. rewrite FIR_Enable_run. cbv zeta. cbn [final_dev].
  rewrite regfile_after_ctrl_read. apply reg_store_other. exact Hx.
Qed.

Lemma ctrl_after_soft_reset d m :
  final_dev (FIR_SoftReset (P := RF) d m) (ctrl_addr (P := RF) d) =
  Z.land (to_u32 (m (ctrl_addr (P := RF) d))) 0xFFFFFFFD.
Proof.
  rewrite FIR_SoftReset_run. cbv zeta. cbn [final_dev].
  rewrite regfile_ctrl_read. apply reg_store_same.
Qed.

Lemma soft_reset_elsewhere d m x :
  x <> ctrl_addr (P := RF) d -> final_dev (FIR_SoftReset (P := RF) d m) x = m x.
Proof.
  intros Hx. rewrite FIR_SoftReset_run. cbv zeta. cbn [final_dev].
  rewrite regfile_after_ctrl_read.
  change (@dev_out32 RF) with reg_store.
  rewrite !reg_store_other by exact Hx. reflexivity.
Qed.

Lemma ctrl_after_set_coeff d i v m :
  window_fits (P := RF) d -> 0 <= i ->
  final_dev (FIR_SetCoeff (P := RF) d i v m) (ctrl_addr (P := RF) d) = m (ctrl_addr (P := RF) d).
Proof.
  intros Hfit Hi. destruct (Z.lt_ge_cases i (NumTaps d)) as [Hlt | Hge].
  - rewrite FIR_SetCoeff_in_range by exact Hlt. cbn [final_dev].
    apply reg_store_other. intros E.
    apply (coeff_addr_not_ctrl d i Hfit); [lia | symmetry; exact E].
  - rewrite FIR_SetCoeff_out_of_range by exact Hge. reflexivity.
Qed.

Lemma get_coeff_pure d i m : final_dev (FIR_GetCoeff (P := RF) d i m) = m.
Proof.
  destruct (Z.lt_ge_cases i (NumTaps d)) as [Hlt | Hge].
  - rewrite FIR_GetCoeff_in_range by exact Hlt. reflexivity.
  - rewrite FIR_GetCoeff_out_of_range by exact Hge. reflexivity.
Qed.

Lemma ctrl_after_load_config d A L m :
  window_fits (P := RF) d -> is_u32 (NumTaps d) -> is_u32 L ->
  final_dev (FIR_LoadConfig (P := RF) d A L m) (ctrl_addr (P := RF) d) =
  let r := to_u32 (m (ctrl_addr (P := RF) d)) in
  if Z.testbit r 0 then Z.lor (Z.land r 0xFFFFFFFE) 1
  else Z.land r 0xFFFFFFFE.
Proof.
  intros Hfit HN HL.
  rewrite FIR_LoadConfig_run by assumption. cbv zeta. cbn [final_dev].
  rewrite regfile_ctrl_read, regfile_after_ctrl_read.
  set (m2 := final_dev (FIR_Enable (P := RF) d 0 m)).
  set (lim := Z.min L (NumTaps d)).
  set (m3 := store_taps (P := RF) d (fun _ => 0) (zrange lim (NumTaps d)) m2).
  set (m4 := store_taps (P := RF) d (array_get A) (zrange 0 lim) m3).
  assert (E4 : m4 (ctrl_addr (P := RF) d) = Z.land (to_u32 (m (ctrl_addr (P := RF) d))) 0xFFFFFFFE).
  { subst m4 m3. unfold is_u32 in HN, HL.
    rewrite !store_taps_other.
    - subst m2. apply (ctrl_after_enable d 0 m).
    - intros i Hi. apply zrange_In in Hi.
      apply coeff_addr_not_ctrl; [exact Hfit | lia].
    - intros i Hi. apply zrange_In in Hi.
      apply coeff_addr_not_ctrl; [exact Hfit | lia]. }
  destruct (Z.testbit (to_u32 (m (ctrl_addr (P := RF) d))) 0).
  - rewrite ctrl_after_enable. cbn [Z.eqb]. rewrite E4.
    rewrite to_u32_small; [reflexivity |].
    apply is_u32_land; [apply to_u32_is_u32 | unfold is_u32; lia].
  - cbn [final_dev]. exact E4.
Qed.

(** C4.  Round trip: on a descriptor with [N] taps, for every index [i < N]
    and every signed 16-bit value [v], [FIR_SetCoeff(i, v)] followed by
    [FIR_GetCoeff(i)] returns exactly [v], when a load returns the last
    value stored to the address. *)
Theorem set_get_round_trip d i v m :
  i < NumTaps d ->
  is_s16 v ->
  ret_val (FIR_GetCoeff (P := RF) d i
             (final_dev (FIR_SetCoeff (P := RF) d i v m))) = v.
Proof.
  intros Hi Hv.
  rewrite FIR_SetCoeff_in_range by exact Hi. cbn [final_dev].
  rewrite FIR_GetCoeff_in_range by exact Hi. cbv zeta. cbn [ret_val].
  change (@dev_in32 RF) with (fun (a : Z) (r : Z -> Z) => (r a, r)).
  change (@dev_out32 RF) with reg_store.
  cbn [fst]. rewrite reg_store_same, to_u32_idem.
  apply to_s16_to_u32. exact Hv.
Qed.

(** C6.  On a descriptor whose register window lies in the address space,
    [FIR_SoftReset] performs exactly one CTRL read followed by two CTRL
    writes, the first with CLEAR set and the second with CLEAR cleared,
    every other bit carried from the read; it touches no coefficient slot,
    so the word of every tap [i < N] is unchanged (and no other address
    changes either); the ENABLE bit of CTRL is the same before and after;
    with CTRL initially 0x00000001 the two writes are 0x00000003 then
    0x00000001. *)
Theorem FIR_SoftReset_frame d m :
  window_in_space (P := RF) d ->
  let c := ctrl_addr (P := RF) d in
  let r := to_u32 (m c) in
  let m' := final_dev (FIR_SoftReset (P := RF) d m) in
  trace (FIR_SoftReset (P := RF) d m) =
    [EvRead c r; EvWrite c (Z.lor r 2); EvWrite c (Z.land r 0xFFFFFFFD)]
  /\ Z.testbit (Z.lor r 2) 1 = true
  /\ Z.testbit (Z.land r 0xFFFFFFFD) 1 = false
  /\ (forall k, 0 <= k -> k <> 1 ->
        Z.testbit (Z.lor r 2) k = Z.testbit r k
        /\ Z.testbit (Z.land r 0xFFFFFFFD) k = Z.testbit r k)
  /\ (forall x, x <> c -> m' x = m x)
  /\ (forall i, 0 <= i < NumTaps d ->
        coeff_addr (P := RF) d i <> c
        /\ m' (coeff_addr (P := RF) d i) = m (coeff_addr (P := RF) d i)
        /\ ret_val (FIR_GetCoeff (P := RF) d i m')
           = ret_val (FIR_GetCoeff (P := RF) d i m))
  /\ enable_bit w d m' = enable_bit w d m
  /\ (m c = 1 ->
      written_values (trace (FIR_SoftReset (P := RF) d m)) = [3; 1]).
Proof.
  intros Hspace.
  pose proof (window_in_space_fits (P := RF) d Hspace) as Hfit.
  intros c r m'.
  assert (Hr : is_u32 r) by apply to_u32_is_u32.
  assert (Hframe : forall x, x <> c -> m' x = m x)
    by (intros x Hx; apply soft_reset_elsewhere; exact Hx).
  split; [rewrite FIR_SoftReset_run; reflexivity |].
  split; [rewrite Z.lor_spec; apply orb_true_r |].
  split; [rewrite Z.land_spec; apply andb_false_r |].
  split.
  { intros k Hk0 Hk1. split.
    - rewrite Z.lor_spec. change 2 with (Z.shiftl 1 1).
      rewrite Z.shiftl_spec by lia.
      replace (Z.testbit 1 (k - 1)) with false; [apply orb_false_r |].
      destruct (Z.eq_dec k 0) as [-> | Hk]; [reflexivity |].
      symmetry. apply (Z.ones_spec_high 1 (k - 1)). lia.
    - destruct (Z.ltb_spec k 32) as [Hlt | Hge].
      + rewrite Z.land_spec.
        replace (Z.testbit 0xFFFFFFFD k) with true; [apply andb_true_r |].
        destruct (Z.eq_dec k 0) as [-> | Hk]; [reflexivity |].
        change 0xFFFFFFFD with (Z.lor (Z.shiftl (Z.ones 30) 2) 1).
        rewrite Z.lor_spec, Z.shiftl_spec by lia.
        rewrite Z.ones_spec_low by lia. reflexivity.
      + rewrite Z.land_spec.
        replace (Z.testbit r k) with false; [reflexivity |].
        subst r. unfold to_u32.
        rewrite Z.mod_pow2_bits_high by lia. reflexivity. }
  split; [exact Hframe |].
  split.
  { intros i Hi.
    assert (Hne : coeff_addr (P := RF) d i <> c)
      by (apply coeff_addr_not_ctrl; assumption).
    assert (E : m' (coeff_addr (P := RF) d i) = m (coeff_addr (P := RF) d i))
      by (apply Hframe; exact Hne).
    split; [exact Hne |]. split; [exact E |].
    rewrite !FIR_GetCoeff_in_range by lia. cbv zeta. cbn [ret_val].
    change (@dev_in32 RF) with (fun (a : Z) (f : Z -> Z) => (f a, f)).
    cbn [fst]. rewrite E. reflexivity. }
  split.
  { unfold enable_bit. subst m'. rewrite ctrl_after_soft_reset.
    fold c. fold r. rewrite Z.land_spec. subst r.
    rewrite to_u32_testbit by lia. apply andb_true_r. }
  intros Hc. rewrite FIR_SoftReset_run. cbv zeta. cbn [trace].
  rewrite regfile_ctrl_read. fold c. rewrite Hc. reflexivity.
Qed.

(** C7.  [FIR_Enable] is an idempotent read-modify-write of CTRL bit 0:
    calling it twice with the same argument leaves every register as one
    call does; after enabling twice ENABLE is 1 and the bits 2..31 (indeed
    every bit but bit 0) of CTRL are those of CTRL before the calls; after
    disabling twice ENABLE is 0 with the same bits preserved. *)
Theorem FIR_Enable_idempotent d e m :
  let once := final_dev (FIR_Enable (P := RF) d e m) in
  let twice := final_dev (FIR_Enable (P := RF) d e once) in
  let c := ctrl_addr (P := RF) d in
  (forall x, twice x = once x)
  /\ Z.testbit (twice c) 0 = negb (e =? 0)
  /\ (forall k, 0 < k < 32 -> Z.testbit (twice c) k = Z.testbit (m c) k).
Proof.
  intros once twice c.
  assert (Honce : once c = if e =? 0
                           then Z.land (to_u32 (m c)) 0xFFFFFFFE
                           else Z.lor (to_u32 (m c)) 1)
    by apply ctrl_after_enable.
  assert (Hu : is_u32 (once c)).
  { rewrite Honce. destruct (e =? 0).
    - apply is_u32_land; [apply to_u32_is_u32 | unfold is_u32; lia].
    - apply is_u32_lor; [apply to_u32_is_u32 | unfold is_u32; lia]. }
  assert (Htwice : twice c = once c).
  { subst twice. rewrite ctrl_after_enable. fold c.
    rewrite (to_u32_small _ Hu), Honce. destruct (e =? 0).
    + rewrite <- Z.land_assoc. reflexivity.
    + rewrite <- Z.lor_assoc. reflexivity. }
  split.
  { intros x. destruct (Z.eq_dec x c) as [-> | Hx]; [exact Htwice |].
    subst twice. apply enable_elsewhere. exact Hx. }
  rewrite Htwice, Honce. split.
  - destruct (e =? 0); cbn [negb].
    + apply land_clears_bit0.
    + apply lor_sets_bit0.
  - intros k Hk. rewrite <- (to_u32_testbit (m c) k) by lia.
    destruct (e =? 0).
    + apply land_keeps_upper; [apply to_u32_is_u32 | lia].
    + apply lor_keeps_upper. lia.
Qed.

Lemma clear_after_init p Base Taps (h : Heap) m0 :
  clear_bit w (ready_config Base Taps)
            (final_dev (FIR_Init (P := RF) (Some p) Base Taps h m0)) = false.
Proof.
  destruct (FIR_Init_run (P := RF) p Base Taps h m0) as [Hfd _].
  unfold clear_bit. rewrite Hfd, ctrl_after_soft_reset.
  rewrite Z.land_spec. apply andb_false_r.
Qed.

Lemma clear_preserved d o m :
  window_fits (P := RF) d -> is_u32 (NumTaps d) ->
  op_typed o ->
  clear_bit w d (exec_op w d o m) = clear_bit w d m
  \/ clear_bit w d (exec_op w d o m) = false.
Proof.
  intros Hfit HN Ho. unfold clear_bit.
  assert (Hr : is_u32 (to_u32 (m (ctrl_addr (P := RF) d))))
    by apply to_u32_is_u32.
  assert (Hb : Z.testbit (to_u32 (m (ctrl_addr (P := RF) d))) 1
               = Z.testbit (m (ctrl_addr (P := RF) d)) 1)
    by (apply to_u32_testbit; lia).
  destruct o as [e | | i v | i | A L]; cbn [exec_op op_typed] in *.
  - left. rewrite ctrl_after_enable, <- Hb. destruct (e =? 0).
    + apply land_keeps_upper; [exact Hr | lia].
    + apply lor_keeps_upper. lia.
  - right. rewrite ctrl_after_soft_reset, Z.land_spec. apply andb_false_r.
  - left. destruct Ho as [[Hi _] _].
    rewrite ctrl_after_set_coeff by assumption. reflexivity.
  - left. rewrite get_coeff_pure. reflexivity.
  - left. destruct Ho as [HL _].
    rewrite ctrl_after_load_config by assumption. cbv zeta. rewrite <- Hb.
    destruct (Z.testbit (to_u32 (m (ctrl_addr (P := RF) d))) 0).
    + rewrite lor_keeps_upper by lia.
      apply land_keeps_upper; [exact Hr | lia].
    + apply land_keeps_upper; [exact Hr | lia].
Qed.

(** C10.  The driver never leaves CLEAR latched high.  On the register
    file, for a descriptor whose register window lies in the address space:
    CLEAR is 0 when [FIR_Init] returns; every API call (enable, soft reset,
    set/get coefficient, bulk load) that starts with CLEAR=0 ends with
    CLEAR=0; hence CLEAR=0 in every state reachable after init. *)
Theorem clear_never_latched Base Taps :
  window_in_space (P := RF) (ready_config Base Taps) ->
  is_u32 Taps ->
  let d := ready_config Base Taps in
  (forall p h m0,
     clear_bit w d (final_dev (FIR_Init (P := RF) (Some p) Base Taps h m0))
     = false)
  /\ (forall o m,
        op_typed o -> clear_bit w d m = false ->
        clear_bit w d (exec_op w d o m) = false)
  /\ (forall m, reachable w Base Taps m -> clear_bit w d m = false).
Proof.
  intros Hspace HN d.
  pose proof (window_in_space_fits (P := RF) d Hspace) as Hfit.
  assert (Hstep : forall o m,
             op_typed o -> clear_bit w d m = false ->
             clear_bit w d (exec_op w d o m) = false).
  { intros o m Ho Hm.
    destruct (clear_preserved d o m Hfit HN Ho) as [E | E];
      [rewrite E; exact Hm | exact E]. }
  split; [intros p h m0; apply clear_after_init |].
  split; [exact Hstep |].
  intros m Hreach. induction Hreach as [p h m0 | o m _ IH Ho].
  - apply clear_after_init.
  - apply Hstep; assumption.
Qed.

End OnRegFile.

(* ========================================================================= *)
(** * The concrete scenarios, on the register file with 32-bit addresses *)
(* ========================================================================= *)

(** S1: [init(base=0x4000_0000, N=8)] with CTRL reading 0. *)
Example scenario_S1 :
  trace (FIR_Init (P := RegFile Ptr32) (Some 0%nat) 0x40000000 8
                  blank_heap regs_zero)
  = [EvRead 0x40000000 0; EvWrite 0x40000000 0;
     EvRead 0x40000000 0; EvWrite 0x40000000 2; EvWrite 0x40000000 0].
Proof. vm_compute. reflexivity. Qed.

(** S2: [set_coeff(3, -16384)] with N=8 is one store at 0x4000001C whose
    low 16 bits are 0xC000. *)
Example scenario_S2 :
  trace (FIR_SetCoeff (P := RegFile Ptr32) desc8 3 (-16384) regs_zero)
  = [EvWrite 0x4000001C 0xFFFFC000]
  /\ Z.land 0xFFFFC000 0xFFFF = 0xC000.
Proof. split; reflexivity. Qed.

(** S3: [load_config([0x1111, 0x2222, 0x3333], 3)] with N=4, enabled. *)
Example scenario_S3 :
  trace (FIR_LoadConfig (P := RegFile Ptr32) desc4
                        [0x1111; 0x2222; 0x3333] 3 regs_enabled)
  = [EvRead 0x40000000 1; EvRead 0x40000000 1; EvWrite 0x40000000 0;
     EvWrite 0x4000001C 0;
     EvWrite 0x40000010 0x1111; EvWrite 0x40000014 0x2222;
     EvWrite 0x40000018 0x3333;
     EvRead 0x40000000 0; EvWrite 0x40000000 1].
Proof. vm_compute. reflexivity. Qed.

Example scenario_S3_order :
  padding_before_values (P := RegFile Ptr32) desc4 3
    (trace (FIR_LoadConfig (P := RegFile Ptr32) desc4
                           [0x1111; 0x2222; 0x3333] 3 regs_enabled))
  = true.
Proof. vm_compute. reflexivity. Qed.

(** S6: [load_config(A, 0)] zeroes all N taps and leaves ENABLE as it was. *)
Example scenario_S6 :
  let r := FIR_LoadConfig (P := RegFile Ptr32) desc4 [] 0 regs_enabled in
  written_values (trace r) = [0; 0; 0; 0; 0; 1]
  /\ map (final_dev r) [0x40000010; 0x40000014; 0x40000018; 0x4000001C]
     = [0; 0; 0; 0]
  /\ enable_bit Ptr32 desc4 (final_dev r) = enable_bit Ptr32 desc4 regs_enabled.
Proof. vm_compute. repeat split. Qed.

(** Truncation: with [L > N] only the first N values are stored. *)
Example scenario_truncation :
  trace (FIR_LoadConfig (P := RegFile Ptr32) desc4 [1; 2; 3; 4; 5; 6] 6 regs_zero)
  = [EvRead 0x40000000 0; EvRead 0x40000000 0; EvWrite 0x40000000 0;
     EvWrite 0x40000010 1; EvWrite 0x40000014 2;
     EvWrite 0x40000018 3; EvWrite 0x4000001C 4].
Proof. vm_compute. reflexivity. Qed.

(* ========================================================================= *)
(** * Where the code departs from a claim, and where a condition is needed *)
(* ========================================================================= *)

(** C2 as stated fails: in scenario S3 ([L = 3 < N = 4]) the zero store to
    tap 3 comes before the stores of the three supplied values. *)
Lemma load_config_values_not_first :
  3 < NumTaps desc4
  /\ values_before_padding (P := RegFile Ptr32) desc4 3
       (trace (FIR_LoadConfig (P := RegFile Ptr32) desc4
                              [0x1111; 0x2222; 0x3333] 3 regs_enabled))
     = false.
Proof. split; vm_compute; reflexivity. Qed.

(** C3 as stated fails: when the CTRL read returns 0x4 (a reserved bit),
    [FIR_Enable(1)] stores 0x5, whose bit 2 is set. *)
Lemma enable_keeps_reserved_bits :
  ~ stores_mask_reserved
      (trace (FIR_Enable (P := RegFile Ptr32) desc8 1 (fun _ => 4))).
Proof.
  intros H. specialize (H 5).
  assert (E : reserved_bits 5 = 0) by (apply H; vm_compute; left; reflexivity).
  vm_compute in E. discriminate E.
Qed.

(** The window condition of C6 cannot be dropped.  [wide_desc] has a window
    of 2^32 + 4 bytes, more than a 32-bit address space holds: its tap
    0x3FFFFFFC is computed at the address of CTRL, and the value 2 written
    to it is read back as 2 before [FIR_SoftReset] and as 0 after it. *)
Lemma soft_reset_changes_aliased_tap :
  let i := 0x3FFFFFFC in
  let m := final_dev (FIR_SetCoeff (P := RegFile Ptr32) wide_desc i 2 regs_zero) in
  let m' := final_dev (FIR_SoftReset (P := RegFile Ptr32) wide_desc m) in
  0 <= i < NumTaps wide_desc
  /\ coeff_addr (P := RegFile Ptr32) wide_desc i
     = ctrl_addr (P := RegFile Ptr32) wide_desc
  /\ ret_val (FIR_GetCoeff (P := RegFile Ptr32) wide_desc i m) = 2
  /\ ret_val (FIR_GetCoeff (P := RegFile Ptr32) wide_desc i m') = 0
  /\ m' (coeff_addr (P := RegFile Ptr32) wide_desc i)
     <> m (coeff_addr (P := RegFile Ptr32) wide_desc i).
Proof.
  cbv zeta. split; [unfold wide_desc, wide_taps; cbn; lia |].
  split; [vm_compute; reflexivity |].
  split; [vm_compute; reflexivity |].
  split; [vm_compute; reflexivity |].
  vm_compute. intros H. discriminate H.
Qed.

(** C9 as stated fails: the log of scenario S1 has a second CTRL read, so
    it is not one read followed by three writes. *)
Lemma init_log_is_not_S1 :
  ~ s1_log (ctrl_addr (P := RegFile Ptr32) desc8)
      (trace (FIR_Init (P := RegFile Ptr32) (Some 0%nat) scenario_base 8
                       blank_heap regs_zero)).
Proof.
  intros [r [w1 [w2 [w3 [H _]]]]]. vm_compute in H. discriminate H.
Qed.

(** The window condition of C10 cannot be dropped either: on [wide_desc],
    whose window exceeds the 32-bit address space, init followed by
    [set_coeff(0x3FFFFFFC, 2)] stores 2 at the address of CTRL. *)
Lemma clear_latched_by_aliased_tap :
  ~ (forall m, reachable Ptr32 scenario_base wide_taps m ->
               clear_bit Ptr32 wide_desc m = false).
Proof.
  intros H.
  pose (m0 := final_dev (FIR_Init (P := RegFile Ptr32) (Some 0%nat)
                                  scenario_base wide_taps blank_heap regs_zero)).
  assert (R0 : reachable Ptr32 scenario_base wide_taps m0) by apply reach_init.
  assert (T : op_typed (OpSetCoeff 0x3FFFFFFC 2))
    by (unfold op_typed, is_u32, is_s16; lia).
  pose proof (H _ (reach_call Ptr32 scenario_base wide_taps _ m0 R0 T)) as E.
  vm_compute in E. discriminate E.
Qed.

(* ========================================================================= *)
(** * The theorems at the inputs of the scenarios *)
(* ========================================================================= *)

Lemma FIR_LoadConfig_safe_sequence_S3 :
  is_u32 (NumTaps desc4) /\ is_u32 3
  /\ exists c0 c1 c2,
       trace (FIR_LoadConfig (P := RegFile Ptr32) desc4
                             [0x1111; 0x2222; 0x3333] 3 regs_enabled)
       = [EvRead 0x40000000 c0; EvRead 0x40000000 c1;
          EvWrite 0x40000000 (Z.land c1 0xFFFFFFFE)]
           ++ [EvWrite 0x4000001C 0]
           ++ [EvWrite 0x40000010 0x1111; EvWrite 0x40000014 0x2222;
               EvWrite 0x40000018 0x3333]
           ++ (if Z.testbit c0 0
               then [EvRead 0x40000000 c2; EvWrite 0x40000000 (Z.lor c2 1)]
               else [])
       /\ c0 = 1.
Proof.
  assert (HN : is_u32 (NumTaps desc4)) by (unfold is_u32; simpl; lia).
  assert (HL : is_u32 3) by (unfold is_u32; lia).
  split; [exact HN |]. split; [exact HL |].
  destruct (FIR_LoadConfig_safe_sequence (P := RegFile Ptr32) desc4
              [0x1111; 0x2222; 0x3333] 3 regs_enabled HN HL)
    as [c0 [c1 [c2 [Htr [Hc0 _]]]]].
  exists c0, c1, c2. split; [exact Htr | exact Hc0].
Defined.

Lemma FIR_LoadConfig_padding_first_S3 :
  is_u32 (NumTaps desc4) /\ 0 <= 3 /\ 3 < NumTaps desc4
  /\ exists c0 c1 c2,
       trace (FIR_LoadConfig (P := RegFile Ptr32) desc4
                             [0x1111; 0x2222; 0x3333] 3 regs_enabled)
       = [EvRead 0x40000000 c0; EvRead 0x40000000 c1;
          EvWrite 0x40000000 (Z.land c1 0xFFFFFFFE)]
           ++ [EvWrite 0x4000001C 0]
           ++ [EvWrite 0x40000010 0x1111; EvWrite 0x40000014 0x2222;
               EvWrite 0x40000018 0x3333]
           ++ (if Z.testbit c0 0
               then [EvRead 0x40000000 c2; EvWrite 0x40000000 (Z.lor c2 1)]
               else []).
Proof.
  assert (HN : is_u32 (NumTaps desc4)) by (unfold is_u32; simpl; lia).
  assert (H0 : 0 <= 3) by lia.
  assert (H3 : 3 < NumTaps desc4) by (simpl; lia).
  split; [exact HN |]. split; [exact H0 |]. split; [exact H3 |].
  destruct (FIR_LoadConfig_padding_first (P := RegFile Ptr32) desc4
              [0x1111; 0x2222; 0x3333] 3 regs_enabled HN H0 H3)
    as [c0 [c1 [c2 [Htr _]]]].
  exists c0, c1, c2. exact Htr.
Defined.

Lemma set_get_round_trip_S2 :
  3 < NumTaps desc8 /\ is_s16 (-16384)
  /\ ret_val (FIR_GetCoeff (P := RegFile Ptr32) desc8 3
                (final_dev (FIR_SetCoeff (P := RegFile Ptr32) desc8 3
                                         (-16384) regs_zero)))
     = -16384.
Proof.
  assert (Hi : 3 < NumTaps desc8) by (simpl; lia).
  assert (Hv : is_s16 (-16384)) by (unfold is_s16; lia).
  split; [exact Hi |]. split; [exact Hv |].
  exact (set_get_round_trip Ptr32 desc8 3 (-16384) regs_zero Hi Hv).
Defined.

Lemma out_of_range_is_silent_S4 :
  NumTaps desc8 <= 8
  /\ trace (FIR_SetCoeff (P := RegFile Ptr32) desc8 8 0x1234 regs_enabled) = []
  /\ ret_val (FIR_GetCoeff (P := RegFile Ptr32) desc8 8 regs_enabled) = 0.
Proof.
  assert (Hi : NumTaps desc8 <= 8) by (simpl; lia).
  split; [exact Hi |].
  destruct (out_of_range_is_silent (P := RegFile Ptr32) desc8 8 0x1234
              regs_enabled Hi) as [Hset [_ [Hget _]]].
  split; [exact Hset | exact Hget].
Defined.

Lemma FIR_SoftReset_frame_S5 :
  window_in_space (P := RegFile Ptr32) desc8
  /\ trace (FIR_SoftReset (P := RegFile Ptr32) desc8 regs_enabled)
     = [EvRead 0x40000000 1; EvWrite 0x40000000 3; EvWrite 0x40000000 1]
  /\ forall i, 0 <= i < NumTaps desc8 ->
       ret_val (FIR_GetCoeff (P := RegFile Ptr32) desc8 i
                  (final_dev (FIR_SoftReset (P := RegFile Ptr32) desc8
                                            regs_enabled)))
       = ret_val (FIR_GetCoeff (P := RegFile Ptr32) desc8 i regs_enabled).
Proof.
  assert (Hspace : window_in_space (P := RegFile Ptr32) desc8)
    by (unfold window_in_space; split; vm_compute; intros H; discriminate H).
  split; [exact Hspace |].
  destruct (FIR_SoftReset_frame Ptr32 desc8 regs_enabled Hspace)
    as [Htr [_ [_ [_ [_ [Htaps _]]]]]].
  split; [exact Htr |].
  intros i Hi. destruct (Htaps i Hi) as [_ [_ Hget]]. exact Hget.
Defined.

Lemma clear_never_latched_S1 :
  window_in_space (P := RegFile Ptr32) (ready_config scenario_base 8)
  /\ is_u32 8
  /\ forall m, reachable Ptr32 scenario_base 8 m ->
               clear_bit Ptr32 desc8 m = false.
Proof.
  assert (Hspace : window_in_space (P := RegFile Ptr32)
                     (ready_config scenario_base 8))
    by (unfold window_in_space; split; vm_compute; intros H; discriminate H).
  assert (HN : is_u32 8) by (unfold is_u32; lia).
  split; [exact Hspace |]. split; [exact HN |].
  destruct (clear_never_latched Ptr32 scenario_base 8 Hspace HN)
    as [_ [_ Hinv]].
  exact Hinv.
Defined.

(* ========================================================================= *)
(** * Further properties on an arbitrary platform *)
(* ========================================================================= *)

Lemma to_u32_le x : 0 <= x -> 0 <= to_u32 x <= x.
Proof.
  intros Hx. unfold to_u32. split.
  - apply Z.mod_pos_bound. lia.
  - apply Z.mod_le; lia.
Qed.

Lemma to_u32_mod4 x : to_u32 x mod 4 = x mod 4.
Proof.
  unfold to_u32. rewrite (Z.mod_eq x (2 ^ 32)) by lia.
  replace (x - 2 ^ 32 * (x / 2 ^ 32))
    with (x + (- (x / 2 ^ 32) * 2 ^ 30) * 4) by lia.
  apply Z.mod_add. lia.
Qed.

Section Window.
Context {P : Platform}.
Implicit Types (d : FirStereo_Config) (s : Device).

Lemma ctrl_addr_in_space d :
  window_in_space d -> 0 <= NumTaps d -> ctrl_addr d = BaseAddress d.
Proof.
  unfold window_in_space, ctrl_addr, to_uintptr.
  change FIR_REG_CTRL_OFFSET with 0. change FIR_MEM_COEFF_OFFSET with 16.
  intros [Hb Htop] HN. rewrite Z.add_0_r. apply Z.mod_small. lia.
Qed.

Lemma coeff_addr_in_space d i :
  window_in_space d -> 0 <= i < NumTaps d ->
  coeff_addr d i = BaseAddress d + 16 + to_u32 (i * 4).
Proof.
  unfold window_in_space, coeff_addr, to_uintptr.
  change FIR_MEM_COEFF_OFFSET with 16.
  intros [Hb Htop] Hi.
  pose proof (to_u32_le (i * 4) ltac:(lia)) as Ht.
  rewrite (Z.mod_small (BaseAddress d + 16)) by lia.
  apply Z.mod_small. lia.
Qed.

Lemma ctrl_in_window d :
  window_in_space d -> 0 <= NumTaps d -> in_window d (ctrl_addr d).
Proof.
  intros Hw HN. left. rewrite ctrl_addr_in_space by assumption.
  change FIR_REG_CTRL_OFFSET with 0. lia.
Qed.

Lemma coeff_in_window d i :
  window_in_space d -> 0 <= i < NumTaps d -> in_window d (coeff_addr d i).
Proof.
  intros Hw Hi. right. rewrite coeff_addr_in_space by assumption.
  change FIR_MEM_COEFF_OFFSET with 16.
  pose proof (to_u32_le (i * 4) ltac:(lia)) as Ht.
  split; [lia |].
  replace (BaseAddress d + 16 + to_u32 (i * 4) - BaseAddress d)
    with (to_u32 (i * 4) + 4 * 4) by lia.
  rewrite Z.mod_add by lia. rewrite to_u32_mod4.
  apply Z.mod_mul. lia.
Qed.

(** X1.  No call of the API ever touches an address outside the register
    window of its instance: when the window [base .. base + 0x10 + 4 N)
    lies in the address space, every load and store of enable, soft reset,
    set/get coefficient and bulk load, whatever the arguments, is at CTRL or
    at a word-aligned coefficient slot below [base + 0x10 + 4 N]. *)
Theorem api_stays_in_window d o s :
  window_in_space d ->
  is_u32 (NumTaps d) ->
  op_typed o ->
  Forall (fun e => in_window d (ev_addr e)) (trace (run_op d o s)).
Proof.
  intros Hw HN Ho.
  assert (HN0 : 0 <= NumTaps d) by (unfold is_u32 in HN; lia).
  pose proof (ctrl_in_window d Hw HN0) as Hc.
  destruct o as [e | | i v | i | A L]; cbn [run_op op_typed] in *.
  - rewrite FIR_Enable_run. cbv zeta. cbn [trace].
    repeat (apply Forall_cons; [exact Hc |]). apply Forall_nil.
  - rewrite FIR_SoftReset_run. cbv zeta. cbn [trace].
    repeat (apply Forall_cons; [exact Hc |]). apply Forall_nil.
  - destruct Ho as [[Hi0 _] _].
    destruct (Z.lt_ge_cases i (NumTaps d)) as [Hlt | Hge].
    + rewrite FIR_SetCoeff_in_range by exact Hlt. cbn [trace].
      apply Forall_cons; [| apply Forall_nil].
      apply coeff_in_window; [exact Hw | lia].
    + rewrite FIR_SetCoeff_out_of_range by exact Hge. apply Forall_nil.
  - destruct Ho as [Hi0 _]. unfold bind, ret. cbn [trace].
    rewrite app_nil_r.
    destruct (Z.lt_ge_cases i (NumTaps d)) as [Hlt | Hge].
    + rewrite FIR_GetCoeff_in_range by exact Hlt. cbv zeta. cbn [trace].
      apply Forall_cons; [| apply Forall_nil].
      apply coeff_in_window; [exact Hw | lia].
    + rewrite FIR_GetCoeff_out_of_range by exact Hge. apply Forall_nil.
  - destruct Ho as [HL _].
    destruct (FIR_LoadConfig_trace d A L s HN HL) as [c2 [Htr _]].
    rewrite Htr. unfold is_u32 in HN, HL.
    repeat rewrite Forall_app. repeat split.
    + repeat (apply Forall_cons; [exact Hc |]). apply Forall_nil.
    + unfold pad_writes. apply Forall_map, Forall_forall.
      intros i Hi. apply zrange_In in Hi.
      apply coeff_in_window; [exact Hw | lia].
    + unfold value_writes, coeff_write. apply Forall_map, Forall_forall.
      intros i Hi. apply zrange_In in Hi.
      apply coeff_in_window; [exact Hw | lia].
    + destruct (Z.testbit (ctrl_read d s) 0);
        repeat (apply Forall_cons; [exact Hc |]); apply Forall_nil.
Qed.

(** X2.  The number of bus accesses of [FIR_LoadConfig] does not depend on
    the length [L] it is given: N coefficient stores and the CTRL accesses,
    3 + N in all when the core was disabled at entry and 5 + N when it was
    enabled. *)
Theorem FIR_LoadConfig_access_count d A L s :
  is_u32 (NumTaps d) -> is_u32 L ->
  length (trace (FIR_LoadConfig d A L s))
  = (3 + Z.to_nat (NumTaps d)
     + (if Z.testbit (ctrl_read d s) 0 then 2 else 0))%nat.
Proof.
  intros HN HL.
  assert (Hlen : length (pad_writes d L ++ value_writes d A L)
                 = Z.to_nat (NumTaps d)).
  { unfold pad_writes, value_writes, zrange, is_u32 in *.
    rewrite length_app, !length_map, !length_seq. lia. }
  destruct (FIR_LoadConfig_trace d A L s HN HL) as [c2 [Htr _]].
  rewrite Htr. rewrite !length_app. rewrite length_app in Hlen.
  destruct (Z.testbit (ctrl_read d s) 0); cbn [length]; lia.
Qed.

Lemma store_taps_ext d (val val' : Z -> Z) l :
  (forall i, In i l -> val i = val' i) ->
  forall s, store_taps d val l s = store_taps d val' l s.
Proof.
  unfold store_taps. induction l as [| i l IH]; intros Hl s.
  - reflexivity.
  - cbn [fold_left]. rewrite (Hl i) by (left; reflexivity).
    apply IH. intros j Hj. apply Hl. right. exact Hj.
Qed.

(** X3.  [FIR_LoadConfig] reads only the cells [0 .. min(L,N)-1] of the
    array: two arrays that agree there give the same run (same log, same
    device afterwards), whatever lies beyond. *)
Theorem FIR_LoadConfig_reads_prefix d A A' L s :
  is_u32 (NumTaps d) -> is_u32 L ->
  (forall i, 0 <= i < Z.min L (NumTaps d) -> array_get A i = array_get A' i) ->
  FIR_LoadConfig d A L s = FIR_LoadConfig d A' L s.
Proof.
  intros HN HL Hagree.
  rewrite !FIR_LoadConfig_run by assumption. cbv zeta.
  assert (Hin : forall i, In i (zrange 0 (Z.min L (NumTaps d))) ->
                          array_get A i = array_get A' i)
    by (intros i Hi; apply zrange_In in Hi; apply Hagree; exact Hi).
  assert (Ev : value_writes d A L = value_writes d A' L).
  { unfold value_writes. apply map_ext_in. intros i Hi.
    rewrite (Hin i Hi). reflexivity. }
  rewrite Ev.
  rewrite (store_taps_ext d (array_get A) (array_get A') _ Hin).
  reflexivity.
Qed.

Lemma to_s16_is_s16 x : is_s16 (to_s16 x).
Proof.
  unfold is_s16, to_s16.
  pose proof (Z.mod_pos_bound (x + 2 ^ 15) (2 ^ 16) ltac:(lia)). lia.
Qed.

Lemma to_s16_low_half x : to_s16 x mod 2 ^ 16 = x mod 2 ^ 16.
Proof.
  unfold to_s16. rewrite Zminus_mod_idemp_l. f_equal. lia.
Qed.

(** X4.  For an index in range [FIR_GetCoeff] performs exactly one load, at
    the slot of the tap, and returns the low 16 bits of the word read, taken
    as a two's-complement number: the result lies in [-32768, 32767] and the
    upper 16 bits of the word do not matter. *)
Theorem FIR_GetCoeff_low_half d i s :
  i < NumTaps d ->
  let word := to_u32 (fst (dev_in32 (coeff_addr d i) s)) in
  trace (FIR_GetCoeff d i s) = [EvRead (coeff_addr d i) word]
  /\ is_s16 (ret_val (FIR_GetCoeff d i s))
  /\ ret_val (FIR_GetCoeff d i s) mod 2 ^ 16 = word mod 2 ^ 16.
Proof.
  intros Hi word. rewrite FIR_GetCoeff_in_range by exact Hi.
  cbv zeta. cbn [trace ret_val]. fold word.
  split; [reflexivity |]. split; [apply to_s16_is_s16 | apply to_s16_low_half].
Qed.

(** X5.  For a tap in range of a window that lies in the address space (at
    most 2^30 taps), [FIR_SetCoeff(i, v)] is exactly one store, at
    [base + 0x10 + 4 i], of the value sign-extended to 32 bits: [v] itself
    when [v >= 0] and [v + 2^32] when [v < 0]. *)
Theorem FIR_SetCoeff_store d i v s :
  window_in_space d ->
  0 <= i < NumTaps d ->
  NumTaps d <= 2 ^ 30 ->
  is_s16 v ->
  trace (FIR_SetCoeff d i v s)
  = [EvWrite (BaseAddress d + 0x10 + 4 * i)
             (if v <? 0 then v + 2 ^ 32 else v)].
Proof.
  intros Hw Hi HN Hv. unfold is_s16 in Hv.
  rewrite FIR_SetCoeff_in_range by lia. cbn [trace]. unfold coeff_write.
  rewrite coeff_addr_in_space by assumption.
  rewrite (to_u32_small (i * 4)) by (unfold is_u32; lia).
  f_equal. f_equal; [lia |].
  destruct (Z.ltb_spec v 0) as [Hneg | Hpos].
  - unfold to_u32. rewrite <- (Z_mod_plus_full v 1 (2 ^ 32)).
    apply Z.mod_small. lia.
  - apply to_u32_small. unfold is_u32. lia.
Qed.

End Window.

(* ========================================================================= *)
(** * Further properties on the register file *)
(* ========================================================================= *)

Lemma u32_land_all x : is_u32 x -> Z.land x 0xFFFFFFFF = x.
Proof.
  intros Hx. change 0xFFFFFFFF with (Z.ones 32).
  rewrite Z.land_ones by lia. apply Z.mod_small. exact Hx.
Qed.

Lemma disable_after_enable r : Z.land (Z.lor r 1) 0xFFFFFFFE = Z.land r 0xFFFFFFFE.
Proof. rewrite Z.land_lor_distr_l. apply Z.lor_0_r. Qed.

Lemma enable_after_disable r :
  is_u32 r -> Z.lor (Z.land r 0xFFFFFFFE) 1 = Z.lor r 1.
Proof.
  intros Hr. rewrite Z.lor_land_distr_l.
  change (Z.lor 0xFFFFFFFE 1) with 0xFFFFFFFF.
  apply u32_land_all. apply is_u32_lor; [exact Hr | unfold is_u32; lia].
Qed.

Lemma enable_when_enabled r : Z.testbit r 0 = true -> Z.lor r 1 = r.
Proof.
  intros Hb. apply Z.bits_inj'. intros n Hn.
  destruct (Z.eq_dec n 0) as [-> | Hn0].
  - rewrite lor_sets_bit0, Hb. reflexivity.
  - apply lor_keeps_upper. lia.
Qed.

Lemma disable_when_disabled r :
  is_u32 r -> Z.testbit r 0 = false -> Z.land r 0xFFFFFFFE = r.
Proof.
  intros Hr Hb. apply Z.bits_inj'. intros n Hn.
  destruct (Z.eq_dec n 0) as [-> | Hn0].
  - rewrite land_clears_bit0, Hb. reflexivity.
  - apply land_keeps_upper; [exact Hr | lia].
Qed.

Section ComposeOnRegFile.
Variable w : PtrWidth.
Implicit Types (d : FirStereo_Config) (m : Z -> Z).

Local Notation "'RF'" := (RegFile w).

(** Below 2^30 taps, distinct taps have distinct slots. *)
Lemma coeff_addr_inj d i j :
  0 <= i < 2 ^ 30 -> 0 <= j < 2 ^ 30 ->
  coeff_addr (P := RF) d i = coeff_addr (P := RF) d j -> i = j.
Proof.
  unfold coeff_addr, to_uintptr. change (@ptr_width RF) with w.
  intros Hi Hj Heq.
  rewrite !to_u32_small in Heq by (unfold is_u32; lia).
  pose proof (ptr_modulus_pos w) as HM.
  assert (Hbig : 2 ^ 32 <= 2 ^ ptr_bits w) by (destruct w; cbn; lia).
  set (M := 2 ^ ptr_bits w) in *.
  set (B := (BaseAddress d + FIR_MEM_COEFF_OFFSET) mod M) in *.
  assert (Hsub : forall a b, 0 <= a <= b -> b < 2 ^ 32 ->
                   (B + a) mod M = (B + b) mod M -> a = b).
  { intros a b Hab Hb E.
    assert (Hz : (b - a) mod M = 0).
    { replace (b - a) with ((B + b) - (B + a)) by lia.
      rewrite Zminus_mod, E, Z.sub_diag. apply Z.mod_0_l. lia. }
    rewrite Z.mod_small in Hz by lia. lia. }
  destruct (Z.le_ge_cases i j) as [Hle | Hle].
  - assert (i * 4 = j * 4) by (apply Hsub; [lia | lia | exact Heq]). lia.
  - assert (j * 4 = i * 4)
      by (apply Hsub; [lia | lia | symmetry; exact Heq]). lia.
Qed.

Lemma store_taps_cons d val j l m :
  store_taps (P := RF) d val (j :: l) m
  = store_taps (P := RF) d val l
      (reg_store (coeff_addr (P := RF) d j) (to_u32 (val j)) m).
Proof. reflexivity. Qed.

(** The word left in the slot of a tap that [store_taps] visits. *)
Lemma store_taps_hit d val l i :
  (forall j, In j l -> 0 <= j < 2 ^ 30) ->
  In i l ->
  forall m, store_taps (P := RF) d val l m (coeff_addr (P := RF) d i)
            = to_u32 (val i).
Proof.
  induction l as [| j l IH]; intros Hl Hi m; [destruct Hi |].
  assert (Hl' : forall k, In k l -> 0 <= k < 2 ^ 30)
    by (intros k Hk; apply Hl; right; exact Hk).
  destruct (in_dec Z.eq_dec i l) as [Hin | Hnin].
  - rewrite store_taps_cons. apply (IH Hl' Hin).
  - destruct Hi as [-> | Hi]; [| contradiction].
    rewrite store_taps_cons, store_taps_other.
    + apply reg_store_same.
    + intros k Hk E. apply Hnin.
      assert (k = i)
        by (apply (coeff_addr_inj d); [apply Hl' | apply Hl; left |]; auto).
      subst k. exact Hk.
Qed.

(** X6.  Read-back after a bulk load.  On the register file, for a window
    that does not wrap onto CTRL and at most 2^30 taps, after
    [FIR_LoadConfig(A, L)] every tap [i < min(L,N)] reads back as [A[i]]
    and every tap in [min(L,N), N) reads back as 0. *)
Theorem FIR_LoadConfig_readback d A L m i :
  window_fits (P := RF) d ->
  is_u32 (NumTaps d) -> NumTaps d <= 2 ^ 30 ->
  is_u32 L ->
  0 <= i < NumTaps d ->
  let m' := final_dev (FIR_LoadConfig (P := RF) d A L m) in
  (i < L -> is_s16 (array_get A i) ->
   ret_val (FIR_GetCoeff (P := RF) d i m') = array_get A i)
  /\ (L <= i -> ret_val (FIR_GetCoeff (P := RF) d i m') = 0).
Proof.
  intros Hfit HN HN30 HL Hi m'.
  unfold is_u32 in HN, HL.
  assert (Hne : coeff_addr (P := RF) d i <> ctrl_addr (P := RF) d)
    by (apply coeff_addr_not_ctrl; assumption).
  set (lim := Z.min L (NumTaps d)).
  set (m2 := final_dev (FIR_Enable (P := RF) d 0 m)).
  set (m3 := store_taps (P := RF) d (fun _ => 0) (zrange lim (NumTaps d)) m2).
  set (m4 := store_taps (P := RF) d (array_get A) (zrange 0 lim) m3).
  assert (Hm' : m' (coeff_addr (P := RF) d i) = m4 (coeff_addr (P := RF) d i)).
  { subst m'. rewrite FIR_LoadConfig_run by (unfold is_u32; assumption).
    cbv zeta. cbn [final_dev]. rewrite regfile_after_ctrl_read.
    fold m2. fold lim. fold m3. fold m4.
    destruct (Z.testbit (ctrl_read (P := RF) d m) 0).
    - apply enable_elsewhere. exact Hne.
    - reflexivity. }
  assert (Hget : ret_val (FIR_GetCoeff (P := RF) d i m')
                 = to_s16 (to_u32 (m4 (coeff_addr (P := RF) d i)))).
  { rewrite FIR_GetCoeff_in_range by lia. cbv zeta. cbn [ret_val].
    change (@dev_in32 RF) with (fun (a : Z) (f : Z -> Z) => (f a, f)).
    cbn [fst]. rewrite Hm'. reflexivity. }
  assert (Hlim : 0 <= lim <= NumTaps d /\ lim <= L
                 /\ (L <= lim \/ NumTaps d <= lim))
    by (unfold lim; lia).
  assert (Hrange : forall lo hi j, 0 <= lo -> hi <= NumTaps d ->
                     In j (zrange lo hi) -> 0 <= j < 2 ^ 30)
    by (intros lo hi j Hlo Hhi Hj; apply zrange_In in Hj; lia).
  rewrite Hget. split.
  - intros HiL Hv. subst m4.
    rewrite store_taps_hit.
    + rewrite to_u32_idem. apply to_s16_to_u32. exact Hv.
    + intros j Hj. apply (Hrange 0 lim j); [lia | lia | exact Hj].
    + apply zrange_In. lia.
  - intros HLi. subst m4.
    rewrite store_taps_other.
    + subst m3. rewrite store_taps_hit.
      * reflexivity.
      * intros j Hj. apply (Hrange lim (NumTaps d) j); [lia | lia | exact Hj].
      * apply zrange_In. lia.
    + intros j Hj E. apply zrange_In in Hj.
      assert (j = i) by (apply (coeff_addr_inj d); [lia | lia | exact E]).
      lia.
Qed.

(** X7.  A bulk load leaves CTRL as it found it: on the register file, for
    a window that does not wrap onto CTRL, the CTRL word after
    [FIR_LoadConfig] is the word read at entry, so ENABLE and every other
    bit are restored. *)
Theorem FIR_LoadConfig_restores_ctrl d A L m :
  window_fits (P := RF) d ->
  is_u32 (NumTaps d) -> is_u32 L ->
  let m' := final_dev (FIR_LoadConfig (P := RF) d A L m) in
  m' (ctrl_addr (P := RF) d) = to_u32 (m (ctrl_addr (P := RF) d))
  /\ enable_bit w d m' = enable_bit w d m
  /\ clear_bit w d m' = clear_bit w d m.
Proof.
  intros Hfit HN HL m'.
  assert (E : m' (ctrl_addr (P := RF) d) = to_u32 (m (ctrl_addr (P := RF) d))).
  { subst m'. rewrite ctrl_after_load_config by assumption. cbv zeta.
    set (r := to_u32 (m (ctrl_addr (P := RF) d))).
    assert (Hr : is_u32 r) by apply to_u32_is_u32.
    destruct (Z.testbit r 0) eqn:Hb.
    - rewrite enable_after_disable by exact Hr.
      apply enable_when_enabled. exact Hb.
    - apply disable_when_disabled; assumption. }
  split; [exact E |].
  unfold enable_bit, clear_bit. rewrite E.
  split; apply to_u32_testbit; lia.
Qed.

Lemma stores_while_disabled_taps c evs rest :
  Forall (fun e => exists a v, e = EvWrite a v /\ a <> c) evs ->
  forall m,
    Z.testbit (m c) 0 = false ->
    (forall m', m' c = m c -> stores_while_disabled c m' rest = true) ->
    stores_while_disabled c m (evs ++ rest) = true.
Proof.
  induction 1 as [| e evs [a [v [-> Ha]]] _ IH]; intros m Hb Hrest.
  - apply Hrest. reflexivity.
  - cbn [app stores_while_disabled]. rewrite Hb. cbn [negb].
    rewrite orb_true_r. cbn [andb].
    assert (Hc : reg_store a v m c = m c)
      by (apply reg_store_other; intros E; apply Ha; symmetry; exact E).
    apply IH.
    + rewrite Hc. exact Hb.
    + intros m' Hm'. apply Hrest. rewrite Hm'. exact Hc.
Qed.

(** X8.  Coefficients are only rewritten while the core is disabled: on the
    register file, for a window that does not wrap onto CTRL, every store
    of [FIR_LoadConfig] to an address other than CTRL happens at a moment
    when the ENABLE bit of CTRL is 0, whether or not the core was enabled at
    entry. *)
Theorem FIR_LoadConfig_stores_disabled d A L m :
  window_fits (P := RF) d ->
  is_u32 (NumTaps d) -> is_u32 L ->
  stores_while_disabled (ctrl_addr (P := RF) d) m
    (trace (FIR_LoadConfig (P := RF) d A L m)) = true.
Proof.
  intros Hfit HN HL.
  destruct (FIR_LoadConfig_trace (P := RF) d A L m HN HL) as [c2 [Htr _]].
  rewrite Htr. clear Htr. unfold is_u32 in HN, HL.
  set (c := ctrl_addr (P := RF) d).
  assert (Htap : forall i, 0 <= i < NumTaps d -> coeff_addr (P := RF) d i <> c)
    by (intros i Hi; apply coeff_addr_not_ctrl; assumption).
  cbn [app stores_while_disabled]. rewrite Z.eqb_refl. cbn [orb andb].
  set (w0 := Z.land _ 0xFFFFFFFE).
  assert (Hw0 : Z.testbit w0 0 = false) by apply land_clears_bit0.
  apply stores_while_disabled_taps.
  { unfold pad_writes. apply Forall_map, Forall_forall.
    intros i Hi. apply zrange_In in Hi.
    eexists. eexists. split; [reflexivity | apply Htap; lia]. }
  { rewrite reg_store_same. exact Hw0. }
  intros m1 Hm1. rewrite reg_store_same in Hm1.
  apply stores_while_disabled_taps.
  { unfold value_writes, coeff_write. apply Forall_map, Forall_forall.
    intros i Hi. apply zrange_In in Hi.
    eexists. eexists. split; [reflexivity | apply Htap; lia]. }
  { rewrite Hm1. exact Hw0. }
  intros m2 _.
  destruct (Z.testbit (ctrl_read (P := RF) d m) 0);
    cbn [stores_while_disabled]; [rewrite Z.eqb_refl |]; reflexivity.
Qed.

(** X9.  [FIR_Init] leaves the hardware quiescent: on the register file,
    after a successful init CTRL holds the word it held before with ENABLE
    and CLEAR both cleared (so ENABLE=0 and CLEAR=0 whatever the state
    found), and no other address has changed. *)
Theorem FIR_Init_quiescent p Base Taps (h : Heap) m0 :
  let d := ready_config Base Taps in
  let c := ctrl_addr (P := RF) d in
  let m := final_dev (FIR_Init (P := RF) (Some p) Base Taps h m0) in
  m c = Z.land (to_u32 (m0 c)) 0xFFFFFFFC
  /\ enable_bit w d m = false
  /\ clear_bit w d m = false
  /\ (forall x, x <> c -> m x = m0 x).
Proof.
  intros d c m.
  destruct (FIR_Init_run (P := RF) p Base Taps h m0) as [Hfd _].
  fold d in Hfd. fold m in Hfd.
  assert (Hc : m c = Z.land (to_u32 (m0 c)) 0xFFFFFFFC).
  { rewrite Hfd. unfold c. rewrite ctrl_after_soft_reset, ctrl_after_enable.
    cbn [Z.eqb]. fold c.
    rewrite to_u32_small
      by (apply is_u32_land; [apply to_u32_is_u32 | unfold is_u32; lia]).
    rewrite <- Z.land_assoc. reflexivity. }
  split; [exact Hc |].
  unfold enable_bit, clear_bit. fold c. rewrite Hc, !Z.land_spec.
  split; [apply andb_false_r |]. split; [apply andb_false_r |].
  intros x Hx. rewrite Hfd.
  rewrite soft_reset_elsewhere by exact Hx.
  apply enable_elsewhere. exact Hx.
Qed.

(** X10.  The last [FIR_Enable] wins: on the register file, a call
    [FIR_Enable(e1)] followed by [FIR_Enable(e2)] leaves every register as
    [FIR_Enable(e2)] alone does. *)
Theorem FIR_Enable_last_wins d e1 e2 m :
  forall x,
    final_dev (FIR_Enable (P := RF) d e2
                 (final_dev (FIR_Enable (P := RF) d e1 m))) x
    = final_dev (FIR_Enable (P := RF) d e2 m) x.
Proof.
  intros x. set (c := ctrl_addr (P := RF) d).
  destruct (Z.eq_dec x c) as [-> | Hx].
  - unfold c. rewrite !ctrl_after_enable. fold c.
    set (r := to_u32 (m c)).
    assert (Hr : is_u32 r) by apply to_u32_is_u32.
    assert (H1 : is_u32 1) by (unfold is_u32; lia).
    assert (HE : is_u32 0xFFFFFFFE) by (unfold is_u32; lia).
    destruct (e1 =? 0), (e2 =? 0);
      rewrite to_u32_small
        by first [apply is_u32_land; assumption | apply is_u32_lor; assumption].
    + rewrite <- Z.land_assoc. reflexivity.
    + apply enable_after_disable. exact Hr.
    + apply disable_after_enable.
    + rewrite <- Z.lor_assoc. reflexivity.
  - rewrite !enable_elsewhere by exact Hx. reflexivity.
Qed.

(** X11.  Taps are independent: on the register file, for two distinct
    indices below 2^30, storing a coefficient to tap [i] does not change
    what [FIR_GetCoeff] returns for tap [j]. *)
Theorem FIR_SetCoeff_other_tap d i j v m :
  0 <= i < 2 ^ 30 -> 0 <= j < 2 ^ 30 -> i <> j ->
  ret_val (FIR_GetCoeff (P := RF) d j
             (final_dev (FIR_SetCoeff (P := RF) d i v m)))
  = ret_val (FIR_GetCoeff (P := RF) d j m).
Proof.
  intros Hi Hj Hij.
  destruct (Z.lt_ge_cases j (NumTaps d)) as [Hjn | Hjn].
  - rewrite !FIR_GetCoeff_in_range by exact Hjn. cbv zeta. cbn [ret_val].
    change (@dev_in32 RF) with (fun (a : Z) (f : Z -> Z) => (f a, f)).
    cbn [fst].
    destruct (Z.lt_ge_cases i (NumTaps d)) as [Hin | Hin].
    + rewrite FIR_SetCoeff_in_range by exact Hin. cbn [final_dev].
      change (@dev_out32 RF) with reg_store.
      rewrite reg_store_other; [reflexivity |].
      intros E. apply Hij. symmetry.
      apply (coeff_addr_inj d); assumption.
    + rewrite FIR_SetCoeff_out_of_range by exact Hin. reflexivity.
  - rewrite !FIR_GetCoeff_out_of_range by exact Hjn. reflexivity.
Qed.

(** X12.  Enable and soft reset commute: on the register file,
    [FIR_Enable(e)] followed by [FIR_SoftReset] leaves every register as
    [FIR_SoftReset] followed by [FIR_Enable(e)] does: ENABLE as [e] asks,
    CLEAR low, every other bit of CTRL as before. *)
Theorem FIR_SoftReset_Enable_commute d e m :
  forall x,
    final_dev (FIR_SoftReset (P := RF) d
                 (final_dev (FIR_Enable (P := RF) d e m))) x
    = final_dev (FIR_Enable (P := RF) d e
                   (final_dev (FIR_SoftReset (P := RF) d m))) x.
Proof.
  intros x. set (c := ctrl_addr (P := RF) d).
  destruct (Z.eq_dec x c) as [-> | Hx].
  - unfold c. rewrite ctrl_after_soft_reset, !ctrl_after_enable,
      ctrl_after_soft_reset. fold c.
    set (r := to_u32 (m c)).
    assert (Hr : is_u32 r) by apply to_u32_is_u32.
    assert (H1 : is_u32 1) by (unfold is_u32; lia).
    assert (HE : is_u32 0xFFFFFFFE) by (unfold is_u32; lia).
    assert (HD : is_u32 0xFFFFFFFD) by (unfold is_u32; lia).
    rewrite (to_u32_small (Z.land r 0xFFFFFFFD))
      by (apply is_u32_land; assumption).
    destruct (e =? 0);
      rewrite to_u32_small
        by first [apply is_u32_land; assumption | apply is_u32_lor; assumption].
    + rewrite <- !Z.land_assoc. reflexivity.
    + rewrite Z.land_lor_distr_l. reflexivity.
  - rewrite soft_reset_elsewhere, !enable_elsewhere, soft_reset_elsewhere
      by exact Hx.
    reflexivity.
Qed.

(** After a run of stores the word at [x] is either the last value stored
    there, whatever the register file was, or the word that was there. *)
Lemma store_taps_hit_or_miss d val l x :
  (forall m, store_taps (P := RF) d val l m x = m x)
  \/ (exists v, forall m, store_taps (P := RF) d val l m x = v).
Proof.
  induction l as [| j l [IH | [v IH]]].
  - left. reflexivity.
  - destruct (Z.eq_dec x (coeff_addr (P := RF) d j)) as [-> | Hx].
    + right. exists (to_u32 (val j)). intros m.
      rewrite store_taps_cons, IH. apply reg_store_same.
    + left. intros m. rewrite store_taps_cons, IH.
      apply reg_store_other. exact Hx.
  - right. exists v. intros m. rewrite store_taps_cons. apply IH.
Qed.

Lemma load_config_elsewhere d A L m x :
  is_u32 (NumTaps d) -> is_u32 L ->
  x <> ctrl_addr (P := RF) d ->
  final_dev (FIR_LoadConfig (P := RF) d A L m) x
  = store_taps (P := RF) d (array_get A) (zrange 0 (Z.min L (NumTaps d)))
      (store_taps (P := RF) d (fun _ => 0)
         (zrange (Z.min L (NumTaps d)) (NumTaps d))
         (final_dev (FIR_Enable (P := RF) d 0 m))) x.
Proof.
  intros HN HL Hx.
  rewrite FIR_LoadConfig_run by assumption. cbv zeta. cbn [final_dev].
  rewrite regfile_after_ctrl_read.
  destruct (Z.testbit (ctrl_read (P := RF) d m) 0).
  - apply enable_elsewhere. exact Hx.
  - reflexivity.
Qed.

(** X13.  A bulk load is idempotent: on the register file, for a window
    that does not wrap onto CTRL, loading the same array twice leaves every
    register as loading it once does. *)
Theorem FIR_LoadConfig_idempotent d A L m :
  window_fits (P := RF) d ->
  is_u32 (NumTaps d) -> is_u32 L ->
  let once := final_dev (FIR_LoadConfig (P := RF) d A L m) in
  let twice := final_dev (FIR_LoadConfig (P := RF) d A L once) in
  forall x, twice x = once x.
Proof.
  intros Hfit HN HL once twice x.
  set (c := ctrl_addr (P := RF) d).
  assert (Hctrl : forall m1,
             final_dev (FIR_LoadConfig (P := RF) d A L m1) c = to_u32 (m1 c)).
  { intros m1. unfold c. rewrite ctrl_after_load_config by assumption.
    cbv zeta. set (r := to_u32 (m1 (ctrl_addr (P := RF) d))).
    assert (Hr : is_u32 r) by apply to_u32_is_u32.
    destruct (Z.testbit r 0) eqn:Hb.
    - rewrite enable_after_disable by exact Hr.
      apply enable_when_enabled. exact Hb.
    - apply disable_when_disabled; assumption. }
  destruct (Z.eq_dec x c) as [-> | Hx].
  - unfold twice. rewrite Hctrl. unfold once. rewrite Hctrl.
    apply to_u32_idem.
  - unfold twice. rewrite load_config_elsewhere by assumption.
    unfold once at 2. rewrite load_config_elsewhere by assumption.
    set (l1 := zrange (Z.min L (NumTaps d)) (NumTaps d)).
    set (l2 := zrange 0 (Z.min L (NumTaps d))).
    assert (He : forall m1, final_dev (FIR_Enable (P := RF) d 0 m1) x = m1 x)
      by (intros m1; apply enable_elsewhere; exact Hx).
    destruct (store_taps_hit_or_miss d (array_get A) l2 x) as [H2 | [v2 H2]].
    + rewrite !H2.
      destruct (store_taps_hit_or_miss d (fun _ => 0) l1 x) as [H1 | [v1 H1]].
      * rewrite !H1, !He. unfold once.
        rewrite load_config_elsewhere by assumption.
        fold l1. fold l2. rewrite H2, H1, He. reflexivity.
      * rewrite !H1. reflexivity.
    + rewrite !H2. reflexivity.
Qed.

End ComposeOnRegFile.

(* ========================================================================= *)
(** * The further properties at the inputs of the scenarios *)
(* ========================================================================= *)

Lemma api_stays_in_window_S3 :
  window_in_space (P := RegFile Ptr32) desc4
  /\ is_u32 (NumTaps desc4)
  /\ op_typed (OpLoadConfig [0x1111; 0x2222; 0x3333] 3)
  /\ Forall (fun e => in_window desc4 (ev_addr e))
       (trace (run_op (P := RegFile Ptr32) desc4
                 (OpLoadConfig [0x1111; 0x2222; 0x3333] 3) regs_enabled)).
Proof.
  assert (Hw : window_in_space (P := RegFile Ptr32) desc4)
    by (unfold window_in_space; split; vm_compute; intros H; discriminate H).
  assert (HN : is_u32 (NumTaps desc4)) by (unfold is_u32; simpl; lia).
  assert (Ho : op_typed (OpLoadConfig [0x1111; 0x2222; 0x3333] 3)).
  { split; [unfold is_u32; lia |].
    repeat (apply Forall_cons; [unfold is_s16; lia |]). apply Forall_nil. }
  split; [exact Hw |]. split; [exact HN |]. split; [exact Ho |].
  exact (api_stays_in_window (P := RegFile Ptr32) desc4 _ regs_enabled Hw HN Ho).
Defined.

Lemma FIR_LoadConfig_access_count_S3 :
  is_u32 (NumTaps desc4) /\ is_u32 3
  /\ length (trace (FIR_LoadConfig (P := RegFile Ptr32) desc4
                      [0x1111; 0x2222; 0x3333] 3 regs_enabled))
     = 9%nat.
Proof.
  assert (HN : is_u32 (NumTaps desc4)) by (unfold is_u32; simpl; lia).
  assert (HL : is_u32 3) by (unfold is_u32; lia).
  split; [exact HN |]. split; [exact HL |].
  exact (FIR_LoadConfig_access_count (P := RegFile Ptr32) desc4
           [0x1111; 0x2222; 0x3333] 3 regs_enabled HN HL).
Defined.

Lemma FIR_LoadConfig_reads_prefix_S3 :
  is_u32 (NumTaps desc4) /\ is_u32 3
  /\ (forall i, 0 <= i < Z.min 3 (NumTaps desc4) ->
        array_get [0x1111; 0x2222; 0x3333] i
        = array_get [0x1111; 0x2222; 0x3333; 0x4444; 0x5555] i)
  /\ FIR_LoadConfig (P := RegFile Ptr32) desc4
       [0x1111; 0x2222; 0x3333] 3 regs_enabled
     = FIR_LoadConfig (P := RegFile Ptr32) desc4
         [0x1111; 0x2222; 0x3333; 0x4444; 0x5555] 3 regs_enabled.
Proof.
  assert (HN : is_u32 (NumTaps desc4)) by (unfold is_u32; simpl; lia).
  assert (HL : is_u32 3) by (unfold is_u32; lia).
  assert (Hag : forall i, 0 <= i < Z.min 3 (NumTaps desc4) ->
                  array_get [0x1111; 0x2222; 0x3333] i
                  = array_get [0x1111; 0x2222; 0x3333; 0x4444; 0x5555] i).
  { intros i Hi. simpl in Hi.
    assert (Hc : i = 0 \/ i = 1 \/ i = 2) by lia.
    destruct Hc as [-> | [-> | ->]]; reflexivity. }
  split; [exact HN |]. split; [exact HL |]. split; [exact Hag |].
  exact (FIR_LoadConfig_reads_prefix (P := RegFile Ptr32) desc4 _ _ 3
           regs_enabled HN HL Hag).
Defined.

Lemma FIR_GetCoeff_low_half_S2 :
  3 < NumTaps desc8
  /\ trace (FIR_GetCoeff (P := RegFile Ptr32) desc8 3 (fun _ => 0x1234C000))
     = [EvRead 0x4000001C 0x1234C000]
  /\ ret_val (FIR_GetCoeff (P := RegFile Ptr32) desc8 3 (fun _ => 0x1234C000))
       mod 2 ^ 16
     = 0xC000.
Proof.
  assert (Hi : 3 < NumTaps desc8) by (simpl; lia).
  split; [exact Hi |].
  destruct (FIR_GetCoeff_low_half (P := RegFile Ptr32) desc8 3
              (fun _ => 0x1234C000) Hi) as [Htr [_ Hlow]].
  split; [exact Htr | exact Hlow].
Defined.

Lemma FIR_SetCoeff_store_S2 :
  window_in_space (P := RegFile Ptr32) desc8
  /\ 0 <= 3 < NumTaps desc8
  /\ NumTaps desc8 <= 2 ^ 30
  /\ is_s16 (-16384)
  /\ trace (FIR_SetCoeff (P := RegFile Ptr32) desc8 3 (-16384) regs_zero)
     = [EvWrite 0x4000001C 0xFFFFC000].
Proof.
  assert (Hw : window_in_space (P := RegFile Ptr32) desc8)
    by (unfold window_in_space; split; vm_compute; intros H; discriminate H).
  assert (Hi : 0 <= 3 < NumTaps desc8) by (simpl; lia).
  assert (HN : NumTaps desc8 <= 2 ^ 30) by (simpl; lia).
  assert (Hv : is_s16 (-16384)) by (unfold is_s16; lia).
  split; [exact Hw |]. split; [exact Hi |]. split; [exact HN |].
  split; [exact Hv |].
  exact (FIR_SetCoeff_store (P := RegFile Ptr32) desc8 3 (-16384) regs_zero
           Hw Hi HN Hv).
Defined.

Lemma FIR_LoadConfig_readback_S3 :
  window_fits (P := RegFile Ptr32) desc4
  /\ is_u32 (NumTaps desc4) /\ NumTaps desc4 <= 2 ^ 30 /\ is_u32 3
  /\ 0 <= 1 < NumTaps desc4 /\ 1 < 3
  /\ is_s16 (array_get [0x1111; 0x2222; 0x3333] 1)
  /\ ret_val (FIR_GetCoeff (P := RegFile Ptr32) desc4 1
                (final_dev (FIR_LoadConfig (P := RegFile Ptr32) desc4
                              [0x1111; 0x2222; 0x3333] 3 regs_enabled)))
     = 0x2222.
Proof.
  assert (Hfit : window_fits (P := RegFile Ptr32) desc4)
    by (unfold window_fits; simpl; lia).
  assert (HN : is_u32 (NumTaps desc4)) by (unfold is_u32; simpl; lia).
  assert (HN30 : NumTaps desc4 <= 2 ^ 30) by (simpl; lia).
  assert (HL : is_u32 3) by (unfold is_u32; lia).
  assert (Hi : 0 <= 1 < NumTaps desc4) by (simpl; lia).
  assert (HiL : 1 < 3) by lia.
  assert (Hv : is_s16 (array_get [0x1111; 0x2222; 0x3333] 1))
    by (unfold is_s16; split; vm_compute;
        [intros H; discriminate H | reflexivity]).
  repeat (split; [assumption |]).
  destruct (FIR_LoadConfig_readback Ptr32 desc4 [0x1111; 0x2222; 0x3333] 3
              regs_enabled 1 Hfit HN HN30 HL Hi) as [Hval _].
  exact (Hval HiL Hv).
Defined.

Lemma FIR_LoadConfig_restores_ctrl_S3 :
  window_fits (P := RegFile Ptr32) desc4
  /\ is_u32 (NumTaps desc4) /\ is_u32 3
  /\ final_dev (FIR_LoadConfig (P := RegFile Ptr32) desc4
                  [0x1111; 0x2222; 0x3333] 3 regs_enabled) 0x40000000
     = 1.
Proof.
  assert (Hfit : window_fits (P := RegFile Ptr32) desc4)
    by (unfold window_fits; simpl; lia).
  assert (HN : is_u32 (NumTaps desc4)) by (unfold is_u32; simpl; lia).
  assert (HL : is_u32 3) by (unfold is_u32; lia).
  repeat (split; [assumption |]).
  destruct (FIR_LoadConfig_restores_ctrl Ptr32 desc4 [0x1111; 0x2222; 0x3333]
              3 regs_enabled Hfit HN HL) as [Hc _].
  exact Hc.
Defined.

Lemma FIR_LoadConfig_stores_disabled_S3 :
  window_fits (P := RegFile Ptr32) desc4
  /\ is_u32 (NumTaps desc4) /\ is_u32 3
  /\ stores_while_disabled 0x40000000 regs_enabled
       (trace (FIR_LoadConfig (P := RegFile Ptr32) desc4
                 [0x1111; 0x2222; 0x3333] 3 regs_enabled))
     = true.
Proof.
  assert (Hfit : window_fits (P := RegFile Ptr32) desc4)
    by (unfold window_fits; simpl; lia).
  assert (HN : is_u32 (NumTaps desc4)) by (unfold is_u32; simpl; lia).
  assert (HL : is_u32 3) by (unfold is_u32; lia).
  repeat (split; [assumption |]).
  exact (FIR_LoadConfig_stores_disabled Ptr32 desc4 [0x1111; 0x2222; 0x3333]
           3 regs_enabled Hfit HN HL).
Defined.

Lemma FIR_SetCoeff_other_tap_S2 :
  0 <= 3 < 2 ^ 30 /\ 0 <= 5 < 2 ^ 30 /\ 3 <> 5
  /\ ret_val (FIR_GetCoeff (P := RegFile Ptr32) desc8 5
                (final_dev (FIR_SetCoeff (P := RegFile Ptr32) desc8 3
                                         (-16384) regs_enabled)))
     = ret_val (FIR_GetCoeff (P := RegFile Ptr32) desc8 5 regs_enabled).
Proof.
  assert (Hi : 0 <= 3 < 2 ^ 30) by lia.
  assert (Hj : 0 <= 5 < 2 ^ 30) by lia.
  assert (Hij : 3 <> 5) by lia.
  repeat (split; [assumption |]).
  exact (FIR_SetCoeff_other_tap Ptr32 desc8 3 5 (-16384) regs_enabled
           Hi Hj Hij).
Defined.

Lemma FIR_LoadConfig_idempotent_S3 :
  window_fits (P := RegFile Ptr32) desc4
  /\ is_u32 (NumTaps desc4) /\ is_u32 3
  /\ forall x,
       final_dev (FIR_LoadConfig (P := RegFile Ptr32) desc4
                    [0x1111; 0x2222; 0x3333] 3
                    (final_dev (FIR_LoadConfig (P := RegFile Ptr32) desc4
                                  [0x1111; 0x2222; 0x3333] 3 regs_enabled))) x
       = final_dev (FIR_LoadConfig (P := RegFile Ptr32) desc4
                      [0x1111; 0x2222; 0x3333] 3 regs_enabled) x.
Proof.
  assert (Hfit : window_fits (P := RegFile Ptr32) desc4)
    by (unfold window_fits; simpl; lia).
  assert (HN : is_u32 (NumTaps desc4)) by (unfold is_u32; simpl; lia).
  assert (HL : is_u32 3) by (unfold is_u32; lia).
  repeat (split; [assumption |]).
  exact (FIR_LoadConfig_idempotent Ptr32 desc4 [0x1111; 0x2222; 0x3333] 3
           regs_enabled Hfit HN HL).
Defined.
